(** * Credit accounting of the image editing backends

    A shallow embedding of the credit ledger code of the repository: the
    SQL functions [handle_new_user] and [update_user_credits] of the Supabase
    schema, and the Express / serverless request handlers that check, debit
    and refund credits around the call to the image generation provider.

    The handlers are written as programs over the external calls they await
    (Supabase requests, the Replicate run, console.error).  One definition of
    a handler gives both its sequential run ([run]) and its interleaving with
    other requests at the awaits ([sched]).

    Left out: the uploaded file on disk and its clean-up, console.log, the
    input handed to the model and the timestamps of the rows.  The credits
    of a profile are taken to be non-NULL, and an id is the id of a row of
    auth.users (the table is not part of the model). *)

From Stdlib Require Import ZArith NArith List String Ascii Bool Lia.
From stdpp Require Import gmap strings pretty list fin_maps.

Local Open Scope string_scope.
Local Open Scope Z_scope.

(** ** Values exchanged with the clients and the provider *)

#[local] Unset Elimination Schemes.
Inductive json : Type :=
| JNull
| JBool (b : bool)
| JNum (n : Z)
| JStr (s : string)
| JArr (items : list json)
| JObj (fields : list (string * json)).
#[local] Set Elimination Schemes.

Record response := mkResponse {
  status : Z;
  body : list (string * json)
}.

(** Lookup of a key of a JSON body, first occurrence. *)
Fixpoint field (k : string) (b : list (string * json)) : option json :=
  match b with
  | [] => None
  | (k', v) :: b' => if String.eqb k k' then Some v else field k b'
  end.

(** ** Tables of the schema (server.js, "Supabase Database Schema") *)

(** public.user_profiles: the key of the map is the column [id]. *)
Record user_profile := mkProfile {
  email : string;
  credits : Z;
  total_credits_purchased : Z
}.

(** public.credit_transactions *)
Record credit_transaction := mkTransaction {
  tx_user_id : string;
  amount : Z;
  transaction_type : string;
  description : string
}.

(** public.headshot_generations / public.image_edits; [image_url] is NULL
    when the insert gives no value for it. *)
Record generation := mkGeneration {
  gen_user_id : string;
  image_url : option json;
  parameters : json;
  credits_used : Z;
  gen_status : string
}.

Record db := mkDb {
  user_profiles : gmap string user_profile;
  credit_transactions : list credit_transaction;
  generations : list generation
}.

Definition set_profiles (d : db) (m : gmap string user_profile) : db :=
  mkDb m (credit_transactions d) (generations d).

Definition add_transaction (d : db) (t : credit_transaction) : db :=
  mkDb (user_profiles d) (credit_transactions d ++ [t]) (generations d).

Definition add_generation (d : db) (g : generation) : db :=
  mkDb (user_profiles d) (credit_transactions d) (generations d ++ [g]).

Definition set_credits (p : user_profile) (c : Z) : user_profile :=
  mkProfile (email p) c (total_credits_purchased p).

Definition set_total (p : user_profile) (t : Z) : user_profile :=
  mkProfile (email p) (credits p) t.

(** The balance of an account, and the sum of the amounts of its rows of
    credit_transactions. *)
Definition balance (d : db) (u : string) : option Z :=
  credits <$> user_profiles d !! u.

Fixpoint sum_amounts (u : string) (l : list credit_transaction) : Z :=
  match l with
  | [] => 0
  | t :: l' =>
      (if String.eqb (tx_user_id t) u then amount t else 0) + sum_amounts u l'
  end.

Definition ledger_sum (d : db) (u : string) : Z :=
  sum_amounts u (credit_transactions d).

(** ** The SQL functions, as transactions *)

(** The columns are INTEGER: PostgreSQL raises "integer out of range"
    instead of wrapping around. *)
Definition int4_min : Z := - 2 ^ 31.
Definition int4_max : Z := 2 ^ 31 - 1.
Definition in_int4 (z : Z) : bool := (int4_min <=? z) && (z <=? int4_max).

Inductive sql_result (A : Type) : Type :=
| SqlOk (a : A) (d : db)
| SqlError (msg : string).
Arguments SqlOk {A} a d.
Arguments SqlError {A} msg.

(** A statement runs on the tables of the transaction; an error leaves the
    function at once, and the caller keeps the tables it had ([commit]). *)
Definition txn (A : Type) : Type := db -> sql_result A.

Definition txn_ret {A} (a : A) : txn A := fun d => SqlOk a d.

Definition txn_bind {A B} (m : txn A) (f : A -> txn B) : txn B :=
  fun d => match m d with
           | SqlOk a d' => f a d'
           | SqlError msg => SqlError msg
           end.

Definition raise {A} (msg : string) : txn A := fun _ => SqlError msg.

Notation "x <~ m ;; f" := (txn_bind m (fun x => f))
  (at level 100, m at next level, right associativity).
Notation "m ;;; f" := (txn_bind m (fun _ => f))
  (at level 100, right associativity).

Definition commit {A} (m : txn A) (d : db) : option A * db :=
  match m d with
  | SqlOk a d' => (Some a, d')
  | SqlError _ => (None, d)
  end.

Definition int4_add (a b : Z) : txn Z :=
  if in_int4 (a + b) then txn_ret (a + b) else raise "integer out of range".

(** SELECT credits INTO current_credits FROM user_profiles WHERE id = u:
    NULL when there is no row. *)
Definition select_credits_into (u : string) : txn (option Z) :=
  fun d => SqlOk (balance d u) d.

(** UPDATE user_profiles SET credits = credits + change WHERE id = u *)
Definition update_credits_by (u : string) (change : Z) : txn unit :=
  fun d => match user_profiles d !! u with
           | None => SqlOk tt d
           | Some p =>
               if in_int4 (credits p + change)
               then SqlOk tt (set_profiles d
                      (<[u := set_credits p (credits p + change)]> (user_profiles d)))
               else SqlError "integer out of range"
           end.

(** INSERT INTO user_profiles: the primary key rejects a second row. *)
Definition insert_profile (u : string) (p : user_profile) : txn unit :=
  fun d => match user_profiles d !! u with
           | Some _ => SqlError "duplicate key value"
           | None => SqlOk tt (set_profiles d (<[u := p]> (user_profiles d)))
           end.

(** INSERT INTO credit_transactions.  The foreign key of user_id on
    auth.users is not checked: every id is that of a row of auth.users. *)
Definition insert_credit_transaction (t : credit_transaction) : txn unit :=
  fun d => SqlOk tt (add_transaction d t).

(** public.handle_new_user(), the trigger on auth.users *)
Definition handle_new_user (new_id new_email : string) : txn unit :=
  insert_profile new_id (mkProfile new_email 10 0) ;;;
  insert_credit_transaction
    (mkTransaction new_id 10 "bonus" "Welcome bonus - 10 free credits").

(** public.update_user_credits(user_uuid, credit_change, transaction_type,
    description).  With no row, current_credits is NULL, the IF is not
    taken, the UPDATE touches nothing and the row of credit_transactions is
    still written. *)
Definition update_user_credits (user_uuid : string) (credit_change : Z)
    (ty desc : string) : txn bool :=
  current_credits <~ select_credits_into user_uuid ;;
  insufficient <~
    match current_credits with
    | Some c =>
        if credit_change <? 0
        then (s <~ int4_add c credit_change ;; txn_ret (s <? 0))
        else txn_ret false
    | None => txn_ret false
    end ;;
  if (insufficient : bool) then txn_ret false
  else
    update_credits_by user_uuid credit_change ;;;
    insert_credit_transaction (mkTransaction user_uuid credit_change ty desc) ;;;
    txn_ret true.

(** ** External calls of a request handler *)

(** What replicate.run does in a given request: it resolves to an output or
    it rejects with an error message. *)
Inductive provider_result : Type :=
| Output (o : json)
| Failure (msg : string).

(** Every call below is one awaited request ([ConsoleError] apart, which is
    synchronous and only writes the server log). *)
Inductive call : Type :=
  (* .from('user_profiles').select('*').eq('id', u).single() *)
| SelectProfile (u : string)
  (* .from('user_profiles').select('id, credits').eq('email', e).single() *)
| SelectProfileByEmail (e : string)
  (* .rpc('update_user_credits', {user_uuid, credit_change, transaction_type, description}) *)
| RpcUpdateUserCredits (u : string) (credit_change : Z) (ty desc : string)
  (* .from('user_profiles').update({credits: v}).eq('id', u), with or
     without .select().single() *)
| UpdateCredits (u : string) (v : Z) (returning : bool)
  (* .from('user_profiles').update({total_credits_purchased: v}).eq('id', u) *)
| UpdateTotalPurchased (u : string) (v : Z)
  (* .from('credit_transactions').insert(row) *)
| InsertTransaction (t : credit_transaction)
  (* .from('headshot_generations').insert(row) *)
| InsertGeneration (g : generation)
  (* replicate.run(model, {input}) *)
| ReplicateRun (r : provider_result)
  (* console.error(label, ...) *)
| ConsoleError (label : string).

(** The {data, error} object a Supabase request resolves to. *)
Record sb_result (D : Type) := mkSb {
  sb_data : option D;
  sb_error : option string
}.
Arguments mkSb {D} sb_data sb_error.
Arguments sb_data {D} s.
Arguments sb_error {D} s.

Definition sb_ok {D} (x : D) : sb_result D := mkSb (Some x) None.
Definition sb_null {D} : sb_result D := mkSb None None.
Definition sb_fail {D} (msg : string) : sb_result D := mkSb None (Some msg).

Definition reply_of (c : call) : Type :=
  match c with
  | SelectProfile _ => sb_result user_profile
  | SelectProfileByEmail _ => sb_result (string * user_profile)
  | RpcUpdateUserCredits _ _ _ _ => sb_result bool
  | UpdateCredits _ _ _ => sb_result user_profile
  | UpdateTotalPurchased _ _ => sb_result unit
  | InsertTransaction _ => sb_result unit
  | InsertGeneration _ => sb_result unit
  | ReplicateRun _ => json
  | ConsoleError _ => unit
  end.

(** An awaited promise resolves or rejects. *)
Inductive outcome (A : Type) : Type :=
| Resolved (a : A)
| Rejected (msg : string).
Arguments Resolved {A} a.
Arguments Rejected {A} msg.

(** ** Handler programs *)

Inductive prog (A : Type) : Type :=
| Return (a : A)
| Throw (msg : string)
| Call (c : call) (k : outcome (reply_of c) -> prog A).
Arguments Return {A} a.
Arguments Throw {A} msg.
Arguments Call {A} c k.

Fixpoint bind {A B} (p : prog A) (f : A -> prog B) : prog B :=
  match p with
  | Return a => f a
  | Throw msg => Throw msg
  | Call c k => Call c (fun o => bind (k o) f)
  end.

(** try { p } catch (error) { h error.message } *)
Fixpoint try_catch {A} (p : prog A) (h : string -> prog A) : prog A :=
  match p with
  | Return a => Return a
  | Throw msg => h msg
  | Call c k => Call c (fun o => try_catch (k o) h)
  end.

Definition await (c : call) : prog (reply_of c) :=
  Call c (fun o => match o with
                   | Resolved r => Return r
                   | Rejected msg => Throw msg
                   end).

Notation "x <- p ;; q" := (bind p (fun x => q))
  (at level 100, p at next level, right associativity).
Notation "p ;; q" := (bind p (fun _ => q))
  (at level 100, right associativity).

Definition console_error (label : string) : prog unit :=
  await (ConsoleError label).

(** ** The world a handler runs in *)

(** What goes wrong with one Supabase request, decided by the environment:
    nothing, an {error} object in the resolved value, or a rejected
    promise. *)
Inductive fault : Type := NoFault | ReturnsError | Rejects.

Record world := mkWorld {
  w_db : db;
  w_trace : list call;        (* the requests sent so far, oldest first *)
  w_errlog : list string;     (* the labels of console.error, oldest first *)
  w_faults : list fault       (* the faults of the coming Supabase requests *)
}.

Definition with_db (w : world) (d : db) : world :=
  mkWorld d (w_trace w) (w_errlog w) (w_faults w).

Definition traced (w : world) (c : call) : world :=
  mkWorld (w_db w) (w_trace w ++ [c]) (w_errlog w) (w_faults w).

Definition logged (w : world) (label : string) : world :=
  mkWorld (w_db w) (w_trace w) (w_errlog w ++ [label]) (w_faults w).

Definition next_fault (w : world) : fault * world :=
  match w_faults w with
  | [] => (NoFault, w)
  | f :: fs => (f, mkWorld (w_db w) (w_trace w) (w_errlog w) fs)
  end.

(** The answer of the database to one request that reached it. *)
Definition select_profile (u : string) (d : db) : sb_result user_profile :=
  match user_profiles d !! u with
  | Some p => sb_ok p
  | None => sb_fail "PGRST116"
  end.

(** .single() wants exactly one row. *)
Definition select_profile_by_email (e : string) (d : db)
    : sb_result (string * user_profile) :=
  match map_to_list (filter (fun kv => email (snd kv) = e) (user_profiles d)) with
  | [row] => sb_ok row
  | _ => sb_fail "PGRST116"
  end.

Definition rpc_update_user_credits (u : string) (change : Z) (ty desc : string)
    (d : db) : sb_result bool * db :=
  if in_int4 change
  then match commit (update_user_credits u change ty desc) d with
       | (Some b, d') => (sb_ok b, d')
       | (None, d') => (sb_fail "integer out of range", d')
       end
  else (sb_fail "value out of range for type integer", d).

Definition update_credits (u : string) (v : Z) (returning : bool) (d : db)
    : sb_result user_profile * db :=
  if in_int4 v
  then match user_profiles d !! u with
       | Some p =>
           let p' := set_credits p v in
           (if returning then sb_ok p' else sb_null,
            set_profiles d (<[u := p']> (user_profiles d)))
       | None => (if returning then sb_fail "PGRST116" else sb_null, d)
       end
  else (sb_fail "value out of range for type integer", d).

Definition update_total_purchased (u : string) (v : Z) (d : db)
    : sb_result unit * db :=
  if in_int4 v
  then match user_profiles d !! u with
       | Some p => (sb_null, set_profiles d (<[u := set_total p v]> (user_profiles d)))
       | None => (sb_null, d)
       end
  else (sb_fail "value out of range for type integer", d).

Definition db_request (c : call) (d : db) : reply_of c * db :=
  match c return reply_of c * db with
  | SelectProfile u => (select_profile u d, d)
  | SelectProfileByEmail e => (select_profile_by_email e d, d)
  | RpcUpdateUserCredits u change ty desc => rpc_update_user_credits u change ty desc d
  | UpdateCredits u v returning => update_credits u v returning d
  | UpdateTotalPurchased u v => update_total_purchased u v d
  | InsertTransaction t => (sb_null, add_transaction d t)
  | InsertGeneration g => (sb_null, add_generation d g)
  | ReplicateRun _ => (JNull, d)
  | ConsoleError _ => (tt, d)
  end.

Definition request_failed (c : call) : reply_of c :=
  match c return reply_of c with
  | SelectProfile _ => sb_fail "request failed"
  | SelectProfileByEmail _ => sb_fail "request failed"
  | RpcUpdateUserCredits _ _ _ _ => sb_fail "request failed"
  | UpdateCredits _ _ _ => sb_fail "request failed"
  | UpdateTotalPurchased _ _ => sb_fail "request failed"
  | InsertTransaction _ => sb_fail "request failed"
  | InsertGeneration _ => sb_fail "request failed"
  | ReplicateRun _ => JNull
  | ConsoleError _ => tt
  end.

(** One external call, run to its end.  A Supabase request is one step: it
    is answered from the tables as they are when it is made, or it fails
    without touching them; update_user_credits runs as a whole in that
    step. *)
Definition exec_call (c : call) (w : world) : outcome (reply_of c) * world :=
  match c return (reply_of c * db -> reply_of c -> outcome (reply_of c) * world) with
  | ConsoleError label => fun _ _ => (Resolved tt, logged w label)
  | ReplicateRun r => fun _ _ =>
      (match r with
       | Output o => Resolved o
       | Failure msg => Rejected msg
       end, traced w c)
  | _ => fun answer failed =>
      let (f, w1) := next_fault (traced w c) in
      match f with
      | NoFault => (Resolved (fst answer), with_db w1 (snd answer))
      | ReturnsError => (Resolved failed, w1)
      | Rejects => (Rejected "fetch failed", w1)
      end
  end (db_request c (w_db w)) (request_failed c).

(** The sequential run of a handler: every call follows the one before. *)
Fixpoint run {A} (p : prog A) (w : world) : outcome A * world :=
  match p with
  | Return a => (Resolved a, w)
  | Throw msg => (Rejected msg, w)
  | Call c k => let (o, w') := exec_call c w in run (k o) w'
  end.

(** ** Requests *)

(** The token of a request, as jwt.verify sees it. *)
Inductive auth_token : Type :=
| NoToken
| InvalidToken                 (* jwt.verify throws *)
| Token (userId : string).     (* decoded.userId *)

Record request := mkRequest {
  req_token : auth_token;
  req_file : bool;                        (* multer found the image *)
  req_body : list (string * json);        (* the text fields of the form *)
  req_image : string                      (* the data URI made of the image *)
}.

(** const { k = dflt } = req.body *)
Definition body_or (req : request) (k : string) (dflt : json) : json :=
  match field k (req_body req) with
  | Some v => v
  | None => dflt
  end.

(** The fields of an object that are there: JSON.stringify leaves out a
    key whose value is undefined. *)
Definition present (k : string) (v : option json) : list (string * json) :=
  match v with
  | Some j => [(k, j)]
  | None => []
  end.

(** { gender, background, aspectRatio, seed }, after
    const { gender = 'none', background = 'neutral', aspectRatio = '1:1',
    seed } = req.body *)
Definition headshot_parameters (req : request) : json :=
  JObj ([("gender", body_or req "gender" (JStr "none"));
         ("background", body_or req "background" (JStr "neutral"));
         ("aspectRatio", body_or req "aspectRatio" (JStr "1:1"))]
        ++ present "seed" (field "seed" (req_body req))).

(** !v, for a value that is there. *)
Definition falsy (v : json) : bool :=
  match v with
  | JNull | JBool false | JNum 0 | JStr "" => true
  | _ => false
  end.

(** v || dflt *)
Definition or_else (v : option json) (dflt : json) : json :=
  match v with
  | Some j => if falsy j then dflt else j
  | None => dflt
  end.

(** seed && seed.trim() !== '' throws a TypeError when the seed is truthy
    and no string (multer makes an array of a field that is sent twice):
    only a string has trim. *)
Definition seed_throws (req : request) : bool :=
  match field "seed" (req_body req) with
  | None => false
  | Some (JStr _) => false
  | Some v => negb (falsy v)
  end.

(** *** White space, trim and parseInt (strings are in UTF-8) *)

Definition byte (a : ascii) : N := Ascii.N_of_ascii a.

(** The bytes of the white space or line terminator at the head of a
    string, none when it starts with something else: TAB, LF, VT, FF, CR and
    SP, U+00A0, U+1680, U+2000 to U+200A, U+2028, U+2029, U+202F, U+205F,
    U+3000 and U+FEFF. *)
Definition space_width (s : string) : nat :=
  match s with
  | String a r =>
      let c := byte a in
      if ((9 <=? c) && (c <=? 13) || (c =? 32))%N then 1%nat
      else
        match r with
        | String b r' =>
            let x := byte b in
            if ((c =? 194) && (x =? 160))%N then 2%nat
            else
              match r' with
              | String e _ =>
                  let y := byte e in
                  if ((c =? 225) && (x =? 154) && (y =? 128))%N then 3%nat
                  else if ((c =? 226) && (x =? 128) &&
                           ((128 <=? y) && (y <=? 138) || (y =? 168) ||
                            (y =? 169) || (y =? 175)))%N then 3%nat
                  else if ((c =? 226) && (x =? 129) && (y =? 159))%N then 3%nat
                  else if ((c =? 227) && (x =? 128) && (y =? 128))%N then 3%nat
                  else if ((c =? 239) && (x =? 187) && (y =? 191))%N then 3%nat
                  else 0%nat
              | EmptyString => 0%nat
              end
        | EmptyString => 0%nat
        end
  | EmptyString => 0%nat
  end.

(** The string without [skip] bytes and then without its leading white
    space. *)
Fixpoint trim_start_from (skip : nat) (s : string) : string :=
  match s with
  | EmptyString => EmptyString
  | String _ r =>
      match skip with
      | S k => trim_start_from k r
      | O =>
          match space_width s with
          | O => s
          | S k => trim_start_from k r
          end
      end
  end.

Definition trim_start (s : string) : string := trim_start_from 0 s.

(** s.trim() === '' *)
Definition blank (s : string) : bool :=
  match trim_start s with
  | EmptyString => true
  | String _ _ => false
  end.

(** The integers that parseInt gives, as Numbers. *)
Inductive number : Type :=
| Finite (z : Z)
| NaN
| Infinite.

Definition digit_of (a : ascii) : option Z :=
  let c := Z.of_N (byte a) in
  if (48 <=? c) && (c <=? 57) then Some (c - 48)
  else if (97 <=? c) && (c <=? 122) then Some (c - 87)
  else if (65 <=? c) && (c <=? 90) then Some (c - 55)
  else None.

(** The value of the digits at the head of a string, [acc] when there is
    none. *)
Fixpoint leading_digits (radix : Z) (s : string) (acc : option Z) : option Z :=
  match s with
  | String a r =>
      match digit_of a with
      | Some v =>
          if v <? radix
          then leading_digits radix r
                 (Some (radix * match acc with Some n => n | None => 0 end + v))
          else acc
      | None => acc
      end
  | EmptyString => acc
  end.

(** The Number nearest to an integer: 53 bits, ties to even. *)
Definition to_number (z : Z) : number :=
  let a := Z.abs z in
  if a <? 2 ^ 53 then Finite z
  else
    let e := Z.log2 a - 52 in
    let q := Z.shiftr a e in
    let r := a - Z.shiftl q e in
    let half := 2 ^ (e - 1) in
    let q' := if r <? half then q
              else if half <? r then q + 1
              else if Z.even q then q else q + 1 in
    let v := Z.shiftl q' e in
    if 2 ^ 1024 <=? v then Infinite else Finite (Z.sgn z * v).

(** parseInt(s), without a radix: white space, a sign, 0x or 0X for base
    16, then the digits up to the first character that is none. *)
Definition parseInt (s : string) : number :=
  let s1 := trim_start s in
  let signed :=
    match s1 with
    | String "-"%char r => (true, r)
    | String "+"%char r => (false, r)
    | _ => (false, s1)
    end in
  let based :=
    match snd signed with
    | String "0"%char (String "x"%char r) => (16, r)
    | String "0"%char (String "X"%char r) => (16, r)
    | _ => (10, snd signed)
    end in
  match leading_digits (fst based) (snd based) None with
  | None => NaN
  | Some z => to_number (if fst signed then - z else z)
  end.

(** JSON.stringify of a Number: NaN and Infinity become null. *)
Definition number_json (n : number) : json :=
  match n with
  | Finite z => JNum z
  | NaN | Infinite => JNull
  end.

Definition json_response (st : Z) (b : list (string * json)) : prog response :=
  Return (mkResponse st b).

(** if (seed && seed.trim() !== '') input.seed = parseInt(seed): the
    statement of the routes that take a seed, for what it throws; [seed] is
    the expression the route writes for the seed. *)
Definition check_seed (seed : string) (req : request) : prog unit :=
  if seed_throws req
  then Throw (seed +:+ ".trim is not a function")
  else Return tt.

(** The authentication middleware shared by server_with_auth.js,
    server_email_fixed.js, server.js and the servers embedded in
    api/auth/session-status.js and api/auth/history.js: it answers 401 or
    hands req.user to the route. *)
Definition authenticateUser (req : request)
    : prog (response + string * user_profile) :=
  try_catch
    (match req_token req with
     | NoToken =>
         Return (inl (mkResponse 401
           [("error", JStr "No authentication token provided")]))
     | InvalidToken => Throw "jwt malformed"
     | Token userId =>
         r <- await (SelectProfile userId) ;;
         match sb_error r, sb_data r with
         | None, Some user => Return (inr (userId, user))
         | _, _ =>
             Return (inl (mkResponse 401
               [("error", JStr "Invalid authentication token")]))
         end
     end)
    (fun _ =>
       console_error "Authentication error:" ;;
       Return (inl (mkResponse 401
         [("error", JStr "Invalid authentication token")]))).

Definition protected (req : request)
    (route : string -> user_profile -> prog response) : prog response :=
  a <- authenticateUser req ;;
  match a with
  | inl res => Return res
  | inr (id, user) => route id user
  end.

(** ** server_with_auth.js (server_email_fixed.js has the same route, on
    the service-role client) *)
Module ServerWithAuth.

(** POST /generate-headshot: the credit is deducted first, the model runs,
    and the catch block refunds, whatever was thrown and wherever. *)
Definition generate_headshot (req : request) (provider : provider_result)
    (id : string) (user : user_profile) : prog response :=
  try_catch
    (if negb (req_file req)
     then json_response 400 [("error", JStr "No image file uploaded")]
     else if credits user <? 1
     then json_response 402
            [("error", JStr "Insufficient credits");
             ("details", JStr "You need at least 1 credit to generate a headshot. Please purchase more credits.")]
     else
       check_seed "seed" req ;;
       deducted <- await (RpcUpdateUserCredits id (-1) "usage"
                            "Professional headshot generation") ;;
       match sb_error deducted with
       | Some _ =>
           console_error "Credit deduction error:" ;;
           json_response 402 [("error", JStr "Failed to deduct credits")]
       | None =>
           output <- await (ReplicateRun provider) ;;
           recorded <- await (InsertGeneration
                        (mkGeneration id (Some output) (headshot_parameters req)
                           1 "completed")) ;;
           match sb_error recorded with
           | Some _ => console_error "Generation record error:"
           | None => Return tt
           end ;;
           updated <- await (SelectProfile id) ;;
           json_response 200
             [("success", JBool true);
              ("imageUrl", output);
              ("message", JStr "Professional headshot generated successfully!");
              ("creditsRemaining",
               JNum (match sb_data updated with
                     | Some p => credits p
                     | None => 0
                     end))]
       end)
    (fun error =>
       console_error "Error generating headshot:" ;;
       try_catch
         (await (RpcUpdateUserCredits id 1 "refund"
                   "Refund for failed generation") ;;
          Return tt)
         (fun refundError => console_error "Refund error:") ;;
       json_response 500
         [("error", JStr "Failed to generate headshot");
          ("details", JStr error)]).

Definition post_generate_headshot (req : request) (provider : provider_result)
    : prog response :=
  protected req (generate_headshot req provider).

End ServerWithAuth.

(** error.message.includes(needle) *)
Fixpoint includes (needle hay : string) : bool :=
  String.prefix needle hay ||
  match hay with
  | EmptyString => false
  | String _ rest => includes needle rest
  end.

(** ** server_with_credits.js *)
Module ServerWithCredits.

Definition authenticateToken (req : request)
    : prog (response + string * user_profile) :=
  try_catch
    (match req_token req with
     | NoToken =>
         Return (inl (mkResponse 401
           [("error", JStr "No authentication token provided")]))
     | InvalidToken => Throw "jwt malformed"
     | Token userId =>
         r <- await (SelectProfile userId) ;;
         match sb_error r, sb_data r with
         | None, Some profile => Return (inr (userId, profile))
         | _, _ =>
             Return (inl (mkResponse 401
               [("error", JStr "Invalid token or user not found")]))
         end
     end)
    (fun _ =>
       console_error "Auth middleware error:" ;;
       Return (inl (mkResponse 401
         [("error", JStr "Invalid or expired token")]))).

(** req.body.gender !== 'none' ? req.body.gender : undefined *)
Definition gender_of (req : request) : option json :=
  match field "gender" (req_body req) with
  | Some (JStr s) => if String.eqb s "none" then None else Some (JStr s)
  | g => g
  end.

(** The seed that goes to the model, once the check of the seed has not
    thrown: parseInt of a string that is not blank. *)
Definition seed_of (req : request) : option number :=
  match field "seed" (req_body req) with
  | Some (JStr s) => if blank s then None else Some (parseInt s)
  | _ => None
  end.

(** parameters, the input of the model, which is also stored with the
    generation. *)
Definition model_parameters (req : request) : json :=
  JObj ([("input_image", JStr (req_image req))]
        ++ present "gender" (gender_of req)
        ++ [("background", or_else (field "background" (req_body req)) (JStr "neutral"));
            ("aspect_ratio", or_else (field "aspectRatio" (req_body req)) (JStr "1:1"))]
        ++ present "seed" (number_json <$> seed_of req)).

(** The parameters of the answer: gender || 'auto-detect', background,
    aspect_ratio and seed || 'random'. *)
Definition answer_parameters (req : request) : json :=
  JObj [("gender", or_else (gender_of req) (JStr "auto-detect"));
        ("background", or_else (field "background" (req_body req)) (JStr "neutral"));
        ("aspectRatio", or_else (field "aspectRatio" (req_body req)) (JStr "1:1"));
        ("seed", match seed_of req with
                 | Some (Finite 0) | Some NaN | None => JStr "random"
                 | Some n => number_json n
                 end)].

(** Array.isArray(output) && output.length > 0 ? output[0]
    : typeof output === 'string' ? output : throw *)
Definition image_url_of (output : json) : prog json :=
  match output with
  | JArr (first :: _) => Return first
  | JStr s => Return (JStr s)
  | _ => Throw "Unexpected output format from Replicate"
  end.

Definition error_message (msg : string) : string * string :=
  if includes "NSFW" msg
  then ("Image rejected: Content not suitable for professional headshots",
        "Please upload a different image that shows a clear face without inappropriate content.")
  else if includes "face" msg
  then ("No clear face detected in the image",
        "Please upload an image with a clearly visible face for best results.")
  else if includes "timeout" msg
  then ("Generation timed out",
        "The AI service is currently busy. Please try again in a few moments.")
  else ("Failed to generate headshot", msg).

(** POST /generate-headshot: the model runs first, then the stored balance
    is overwritten with req.user.credits - 1.  (The input is put together
    before the check of the seed; nothing in that throws.) *)
Definition generate_headshot (req : request) (provider : provider_result)
    (id : string) (user : user_profile) : prog response :=
  try_catch
    (if credits user <? 1
     then json_response 400
            [("success", JBool false);
             ("error", JStr "Insufficient credits. You need at least 1 credit to generate a headshot.");
             ("creditsRemaining", JNum (credits user))]
     else if negb (req_file req)
     then json_response 400
            [("success", JBool false);
             ("error", JStr "No image file uploaded")]
     else
       check_seed "req.body.seed" req ;;
       output <- await (ReplicateRun provider) ;;
       imageUrl <- image_url_of output ;;
       updated <- await (UpdateCredits id (credits user - 1) true) ;;
       match sb_error updated with
       | Some _ => console_error "Failed to update user credits:"
       | None => Return tt
       end ;;
       saved <- await (InsertGeneration
                  (mkGeneration id (Some imageUrl) (model_parameters req)
                     1 "completed")) ;;
       match sb_error saved with
       | Some _ => console_error "Failed to save generation record:"
       | None => Return tt
       end ;;
       json_response 200
         [("success", JBool true);
          ("imageUrl", imageUrl);
          ("message", JStr "Professional headshot generated successfully!");
          ("creditsRemaining",
           JNum (match sb_data updated with
                 | Some p => credits p
                 | None => credits user - 1
                 end));
          ("parameters", answer_parameters req)])
    (fun error =>
       console_error "Headshot generation error:" ;;
       json_response 500
         [("success", JBool false);
          ("error", JStr (fst (error_message error)));
          ("details", JStr (snd (error_message error)));
          ("creditsRemaining", JNum (credits user))]).

Definition post_generate_headshot (req : request) (provider : provider_result)
    : prog response :=
  a <- authenticateToken req ;;
  match a with
  | inl res => Return res
  | inr (id, user) => generate_headshot req provider id user
  end.

(** POST /api/purchase-credits, for a body with a packageId.  The row of
    credit_packages the route selects is an argument, as its name and its
    credits ([None]: no active package with that id); the row of
    credit_transactions holds the credits as credits_purchased. *)
Definition purchase_credits (package : option (string * Z))
    (id : string) (user : user_profile) : prog response :=
  try_catch
    (match package with
     | None =>
         json_response 404
           [("success", JBool false); ("error", JStr "Credit package not found")]
     | Some (name, package_credits) =>
         transaction <- await (InsertTransaction
                          (mkTransaction id package_credits "purchase" name)) ;;
         match sb_error transaction with
         | Some _ =>
             console_error "Transaction creation error:" ;;
             json_response 500
               [("success", JBool false);
                ("error", JStr "Failed to create transaction record")]
         | None =>
             updated <- await (UpdateCredits id (credits user + package_credits) true) ;;
             match sb_error updated, sb_data updated with
             | None, Some p =>
                 json_response 200
                   [("success", JBool true);
                    ("creditsAdded", JNum package_credits);
                    ("newCreditsBalance", JNum (credits p))]
             | Some _, _ =>
                 console_error "Profile update error:" ;;
                 json_response 500
                   [("success", JBool false);
                    ("error", JStr "Failed to update user credits")]
             | None, None => Throw "Cannot read properties of null"
             end
         end
     end)
    (fun _ =>
       console_error "Purchase credits error:" ;;
       json_response 500
         [("success", JBool false);
          ("error", JStr "Internal server error during purchase")]).

Definition post_purchase_credits (req : request) (package : option (string * Z))
    : prog response :=
  a <- authenticateToken req ;;
  match a with
  | inl res => Return res
  | inr (id, user) => purchase_credits package id user
  end.

End ServerWithCredits.

(** ** The Express server in api/auth/session-status.js (server.js has its
    purchase route as /api/auth/purchase; the route of server.js for an image
    edit, which takes a prompt and writes to image_edits, is not part of the
    model) *)
Module ServerSupabase.

(** POST /generate-headshot: the model runs first, then update_user_credits
    deducts; the catch block records the failed generation. *)
Definition generate_headshot (req : request) (provider : provider_result)
    (id : string) (user : user_profile) : prog response :=
  try_catch
    (if negb (req_file req)
     then json_response 400 [("error", JStr "No image file uploaded")]
     else if credits user <? 1
     then json_response 400
            [("error", JStr "Insufficient credits");
             ("message", JStr "You need at least 1 credit to generate a headshot. Please purchase more credits.")]
     else
       check_seed "seed" req ;;
       output <- await (ReplicateRun provider) ;;
       deducted <- await (RpcUpdateUserCredits id (-1) "usage"
                            "Generated professional headshot") ;;
       match sb_error deducted with
       | Some _ => console_error "Credit deduction error:"
       | None => Return tt
       end ;;
       await (InsertGeneration
                (mkGeneration id (Some output) (headshot_parameters req)
                   1 "completed")) ;;
       json_response 200
         [("success", JBool true);
          ("imageUrl", output);
          ("message", JStr "Professional headshot generated successfully!");
          ("creditsRemaining", JNum (credits user - 1))])
    (fun error =>
       console_error "Error generating headshot:" ;;
       await (InsertGeneration
                (mkGeneration id None (JObj (req_body req)) 0 "failed")) ;;
       json_response 500
         [("error", JStr "Failed to generate headshot");
          ("details", JStr error)]).

Definition post_generate_headshot (req : request) (provider : provider_result)
    : prog response :=
  protected req (generate_headshot req provider).

(** POST /api/credits/purchase, for a body {amount, plan} with an integer
    amount. *)
Definition credits_purchase (amount : Z) (plan : string)
    (id : string) (user : user_profile) : prog response :=
  try_catch
    (if (amount =? 0) || (amount <=? 0)
     then json_response 400 [("error", JStr "Invalid credit amount")]
     else
       r <- await (RpcUpdateUserCredits id amount "purchase"
                     ("Purchased " +:+ pretty amount +:+ " credits - "
                        +:+ plan +:+ " plan")) ;;
       match sb_error r, sb_data r with
       | None, Some true =>
           await (UpdateTotalPurchased id (total_credits_purchased user + amount)) ;;
           json_response 200
             [("success", JBool true);
              ("message", JStr ("Successfully purchased " +:+ pretty amount
                                  +:+ " credits!"));
              ("newBalance", JNum (credits user + amount))]
       | _, _ =>
           console_error "Credit purchase error:" ;;
           json_response 500 [("error", JStr "Failed to purchase credits")]
       end)
    (fun _ =>
       console_error "Credit purchase error:" ;;
       json_response 500 [("error", JStr "Failed to purchase credits")]).

Definition post_credits_purchase (req : request) (amount : Z) (plan : string)
    : prog response :=
  protected req (credits_purchase amount plan).

End ServerSupabase.

(** ** server (1try).js, after server_with_auth.js in the same file *)
Module ServerFirstTry.

(** authenticateToken only verifies the token. *)
Definition authenticateToken (req : request) : response + string :=
  match req_token req with
  | NoToken => inl (mkResponse 401 [("error", JStr "Access token required")])
  | InvalidToken => inl (mkResponse 403 [("error", JStr "Invalid token")])
  | Token userId => inr userId
  end.

(** POST /api/generate-headshot: read the balance, run the model, write
    the balance read minus one, then insert the usage row. *)
Definition generate_headshot (req : request) (provider : provider_result)
    (userId : string) : prog response :=
  try_catch
    (if negb (req_file req)
     then json_response 400 [("error", JStr "No image file provided")]
     else
       r <- await (SelectProfile userId) ;;
       match sb_error r, sb_data r with
       | None, Some profile =>
           if credits profile <? 1
           then json_response 400 [("error", JStr "Insufficient credits")]
           else
             output <- await (ReplicateRun provider) ;;
             let newCredits := credits profile - 1 in
             updated <- await (UpdateCredits userId newCredits false) ;;
             match sb_error updated with
             | Some _ => console_error "Error updating credits:"
             | None => Return tt
             end ;;
             recorded <- await (InsertTransaction
                          (mkTransaction userId (-1) "usage"
                             "Generated professional headshot")) ;;
             match sb_error recorded with
             | Some _ => console_error "Error recording transaction:"
             | None => Return tt
             end ;;
             json_response 200
               [("success", JBool true);
                ("output", output);
                ("creditsRemaining", JNum newCredits)]
       | _, _ => json_response 404 [("error", JStr "User not found")]
       end)
    (fun error =>
       console_error "Error generating headshot:" ;;
       json_response 500
         [("error", JStr "Failed to generate headshot");
          ("details", JStr error)]).

Definition post_generate_headshot (req : request) (provider : provider_result)
    : prog response :=
  match authenticateToken req with
  | inl res => Return res
  | inr userId => generate_headshot req provider userId
  end.

End ServerFirstTry.

(** ** api/auth/generate-headshot.js (the handler for an image edit at the
    end of api/auth/session-status.js, which takes a prompt and writes to
    image_edits, is not part of the model) *)
Module ApiGenerateHeadshot.

(** { gender: fields.gender, background: fields.background,
    aspectRatio: fields.aspectRatio, seed: fields.seed } *)
Definition field_parameters (req : request) : json :=
  JObj (present "gender" (field "gender" (req_body req))
        ++ present "background" (field "background" (req_body req))
        ++ present "aspectRatio" (field "aspectRatio" (req_body req))
        ++ present "seed" (field "seed" (req_body req))).

(** The body of the callback of form.parse, for a POST whose form data
    parses.  Nothing catches what it throws: the try of [handler] has
    returned by then, so a rejection leaves the request without an answer.
    The fields are taken as formidable parses them without its multiples
    option, each one a string, so that the trim of the seed does not throw. *)
Definition handler (req : request) (provider : provider_result)
    : prog response :=
  match req_token req with
  | NoToken =>
      json_response 401 [("error", JStr "No authentication token provided")]
  | InvalidToken => Throw "jwt malformed"
  | Token userId =>
      r <- await (SelectProfile userId) ;;
      match sb_error r, sb_data r with
      | None, Some user =>
          if credits user <? 1
          then json_response 400
                 [("error", JStr "Insufficient credits");
                  ("message", JStr "You need at least 1 credit to generate a headshot. Please purchase more credits.")]
          else if negb (req_file req)
          then json_response 400 [("error", JStr "No image file uploaded")]
          else
            output <- await (ReplicateRun provider) ;;
            await (RpcUpdateUserCredits userId (-1) "usage"
                     "Generated professional headshot") ;;
            await (InsertGeneration
                     (mkGeneration userId (Some output) (field_parameters req)
                        1 "completed")) ;;
            json_response 200
              [("success", JBool true);
               ("imageUrl", output);
               ("message", JStr "Professional headshot generated successfully!");
               ("creditsRemaining", JNum (credits user - 1))]
      | _, _ =>
          json_response 401 [("error", JStr "Invalid authentication token")]
      end
  end.

End ApiGenerateHeadshot.

(** ** The Stripe webhook (after server_with_credits.js in the same file;
    server.js has it as POST /api/auth/stripe-webhook) *)
Module StripeWebhook.

(** A checkout.session.completed event: the customer email and the parsed
    metadata ([0] for what parseInt makes NaN). *)
Record checkout_session := mkSession {
  signature_ok : bool;
  customer_email : option string;
  meta_credits : Z;
  meta_quantity : Z
}.

Definition handler (session : checkout_session) : prog response :=
  if negb (signature_ok session)
  then console_error "Webhook signature verification failed." ;;
       json_response 400 []
  else
    match customer_email session with
    | Some e =>
        if negb (String.eqb e "") && negb (meta_credits session =? 0)
           && negb (meta_quantity session =? 0)
        then
          try_catch
            (r <- await (SelectProfileByEmail e) ;;
             match sb_data r with
             | None => Throw "User not found"
             | Some (id, user) =>
                 let newCredits :=
                   credits user + meta_credits session * meta_quantity session in
                 await (UpdateCredits id newCredits false) ;;
                 Return tt
             end)
            (fun _ => console_error "Failed to update credits:")
        else Return tt
    | None => Return tt
    end ;;
    json_response 200 [].

End StripeWebhook.

(** ** The Express server in api/auth/history.js *)
Module ServerHistory.

(** POST /generate-headshot: the model runs first, then update_user_credits
    deducts; a deduction that fails or returns FALSE is logged and the image
    is returned all the same. *)
Definition generate_headshot (req : request) (provider : provider_result)
    (id : string) (user : user_profile) : prog response :=
  try_catch
    (if negb (req_file req)
     then json_response 400 [("error", JStr "No image file uploaded")]
     else if credits user <? 1
     then json_response 402
            [("error", JStr "Insufficient credits");
             ("message", JStr "You need at least 1 credit to generate a headshot. Please purchase more credits.")]
     else
       check_seed "seed" req ;;
       output <- await (ReplicateRun provider) ;;
       deducted <- await (RpcUpdateUserCredits id (-1) "usage"
                            "Generated professional headshot") ;;
       match sb_error deducted, sb_data deducted with
       | None, Some true => Return tt
       | _, _ => console_error "Credit deduction error:"
       end ;;
       recorded <- await (InsertGeneration
                    (mkGeneration id (Some output) (headshot_parameters req)
                       1 "completed")) ;;
       match sb_error recorded with
       | Some _ => console_error "Generation record error:"
       | None => Return tt
       end ;;
       updated <- await (SelectProfile id) ;;
       json_response 200
         [("success", JBool true);
          ("imageUrl", output);
          ("message", JStr "Professional headshot generated successfully!");
          ("creditsRemaining",
           JNum (match sb_data updated with
                 | Some p => if credits p =? 0 then credits user - 1 else credits p
                 | None => credits user - 1
                 end))])
    (fun error =>
       console_error "Error generating headshot:" ;;
       json_response 500
         [("error", JStr "Failed to generate headshot");
          ("details", JStr error)]).

Definition post_generate_headshot (req : request) (provider : provider_result)
    : prog response :=
  protected req (generate_headshot req provider).

End ServerHistory.

(** ** server 2.js, after the README in server.js *)
Module ServerSecond.

(** authenticateUser asks supabase.auth.getUser for the user of the token. *)
Definition authenticateUser (req : request) : response + string :=
  match req_token req with
  | NoToken => inl (mkResponse 401 [("error", JStr "No token provided")])
  | InvalidToken => inl (mkResponse 401 [("error", JStr "Invalid token")])
  | Token userId => inr userId
  end.

(** POST /api/generate: read the balance, write the balance read minus one,
    insert the usage row, then run the model; the catch block gives nothing
    back. *)
Definition generate (req : request) (provider : provider_result)
    (userId : string) : prog response :=
  try_catch
    (if negb (req_file req)
     then json_response 400 [("error", JStr "No image file provided")]
     else
       r <- await (SelectProfile userId) ;;
       match sb_error r, sb_data r with
       | None, Some profile =>
           if credits profile <? 1
           then json_response 400 [("error", JStr "Insufficient credits")]
           else
             deducted <- await (UpdateCredits userId (credits profile - 1) false) ;;
             match sb_error deducted with
             | Some _ => json_response 500 [("error", JStr "Failed to deduct credit")]
             | None =>
                 await (InsertTransaction
                          (mkTransaction userId (-1) "usage"
                             "Generated professional headshot")) ;;
                 output <- await (ReplicateRun provider) ;;
                 json_response 200
                   [("success", JBool true);
                    ("output", output);
                    ("remaining_credits", JNum (credits profile - 1))]
             end
       | _, _ => json_response 500 [("error", JStr "Failed to get user profile")]
       end)
    (fun error =>
       console_error "Generation error:" ;;
       json_response 500
         [("error", JStr ("Failed to generate headshot: " +:+ error))]).

Definition post_generate (req : request) (provider : provider_result)
    : prog response :=
  match authenticateUser req with
  | inl res => Return res
  | inr userId => generate req provider userId
  end.

End ServerSecond.

(** ** The generation routes, side by side *)

Inductive variant : Type :=
| WithAuth      (* server_with_auth.js, server_email_fixed.js *)
| WithCredits   (* server_with_credits.js *)
| Supabase      (* the server in api/auth/session-status.js *)
| History       (* the server in api/auth/history.js *)
| FirstTry      (* server (1try).js *)
| Second        (* server 2.js *)
| Api.          (* api/auth/generate-headshot.js *)

Definition generate (v : variant) (req : request) (provider : provider_result)
    : prog response :=
  match v with
  | WithAuth => ServerWithAuth.post_generate_headshot req provider
  | WithCredits => ServerWithCredits.post_generate_headshot req provider
  | Supabase => ServerSupabase.post_generate_headshot req provider
  | History => ServerHistory.post_generate_headshot req provider
  | FirstTry => ServerFirstTry.post_generate_headshot req provider
  | Second => ServerSecond.post_generate req provider
  | Api => ApiGenerateHeadshot.handler req provider
  end.

(** Which of them deduct before the model runs. *)
Definition debits_first (v : variant) : bool :=
  match v with
  | WithAuth | Second => true
  | WithCredits | Supabase | History | FirstTry | Api => false
  end.

(** ** Reading a trace *)

Definition is_provider_call (c : call) : bool :=
  match c with
  | ReplicateRun _ => true
  | _ => false
  end.

(** The requests that take credits from [u]: update_user_credits with a
    negative change, or an UPDATE of the column. *)
Definition is_debit_of (u : string) (c : call) : bool :=
  match c with
  | RpcUpdateUserCredits u' change _ _ => String.eqb u' u && (change <? 0)
  | UpdateCredits u' _ _ => String.eqb u' u
  | _ => false
  end.

Definition provider_calls (t : list call) : list call :=
  List.filter is_provider_call t.

(** In the trace, no call of the second kind comes before the first call
    of the first kind. *)
Fixpoint precedes (first second : call -> bool) (t : list call) : bool :=
  match t with
  | [] => true
  | c :: t' =>
      if first c then true
      else if second c then false
      else precedes first second t'
  end.

(** No provider call comes before the first debit of [u]. *)
Definition debit_precedes_provider (u : string) (t : list call) : bool :=
  precedes (is_debit_of u) is_provider_call t.

(** No debit of [u] comes before the first provider call. *)
Definition provider_precedes_debit (u : string) (t : list call) : bool :=
  precedes is_provider_call (is_debit_of u) t.

(** The answer "Insufficient credits" of the routes (400 or 402). *)
Definition insufficient_balance (res : response) : bool :=
  ((status res =? 400) || (status res =? 402)) &&
  match field "error" (body res) with
  | Some (JStr s) => String.prefix "Insufficient credits" s
  | _ => false
  end.

Definition succeeded (o : outcome response) : bool :=
  match o with
  | Resolved res => status res =? 200
  | Rejected _ => false
  end.

(** ** Requests in flight *)

(** One awaited call of a request. *)
Definition step {A} (p : prog A) (w : world) : prog A * world :=
  match p with
  | Call c k => let (o, w') := exec_call c w in (k o, w')
  | _ => (p, w)
  end.

(** The requests in flight advance in the order of the schedule; a number
    names the request that resumes next.  (console.error is resumed like an
    await; it does not touch the tables.) *)
Fixpoint sched {A} (order : list nat) (ps : list (prog A)) (w : world)
    : list (prog A) * world :=
  match order with
  | [] => (ps, w)
  | i :: order' =>
      match ps !! i with
      | Some p => let (p', w') := step p w in sched order' (<[i := p']> ps) w'
      | None => sched order' ps w
      end
  end.

Definition finished {A} (p : prog A) : option (outcome A) :=
  match p with
  | Return a => Some (Resolved a)
  | Throw msg => Some (Rejected msg)
  | Call _ _ => None
  end.

(** Requests served one after the other. *)
Fixpoint serve {A} (ps : list (prog A)) (w : world) : list (outcome A) * world :=
  match ps with
  | [] => ([], w)
  | p :: ps' =>
      let (o, w') := run p w in
      let (os, w'') := serve ps' w' in
      (o :: os, w'')
  end.

(** The outcomes of the requests that have finished, and how many of them
    were answered 200: each of these generations costs one credit. *)
Definition outcomes {A} (ps : list (prog A)) : list (outcome A) :=
  omap finished ps.

Definition successes (os : list (outcome response)) : Z :=
  Z.of_nat (length (List.filter succeeded os)).

(** A generation request: the route, the request and what the provider
    does with it. *)
Definition generation_request : Type := variant * request * provider_result.

Definition handle (g : generation_request) : prog response :=
  generate (fst (fst g)) (snd (fst g)) (snd g).

(** ** Operations on the ledger *)

Inductive operation : Type :=
  (* INSERT INTO auth.users, which fires the trigger handle_new_user *)
| NewUser (id email : string)
  (* a call of update_user_credits by itself *)
| ApplyDelta (u : string) (change : Z) (ty desc : string)
  (* a generation request to one of the servers *)
| Generate (v : variant) (req : request) (provider : provider_result)
  (* ServerSupabase: POST /api/credits/purchase *)
| Purchase (req : request) (amount : Z) (plan : string)
  (* ServerWithCredits: POST /api/purchase-credits *)
| PurchasePackage (req : request) (package : option (string * Z))
  (* the Stripe webhook *)
| Checkout (session : StripeWebhook.checkout_session).

Definition apply (op : operation) (w : world) : world :=
  match op with
  | NewUser id email =>
      with_db w (snd (commit (handle_new_user id email) (w_db w)))
  | ApplyDelta u change ty desc =>
      snd (run (await (RpcUpdateUserCredits u change ty desc)) w)
  | Generate v req provider => snd (run (generate v req provider) w)
  | Purchase req amount plan =>
      snd (run (ServerSupabase.post_credits_purchase req amount plan) w)
  | PurchasePackage req package =>
      snd (run (ServerWithCredits.post_purchase_credits req package) w)
  | Checkout session => snd (run (StripeWebhook.handler session) w)
  end.

Definition apply_all (ops : list operation) (w : world) : world :=
  fold_left (fun w op => apply op w) ops w.

(** The operations of the claim on non-negative balances: a purchase adds
    credits. *)
Definition adds_credits (op : operation) : Prop :=
  match op with
  | PurchasePackage _ (Some (_, package_credits)) => 0 <= package_credits
  | Checkout session =>
      0 <= StripeWebhook.meta_credits session * StripeWebhook.meta_quantity session
  | _ => True
  end.

(** The operations whose balance changes all go through handle_new_user and
    update_user_credits. *)
Definition through_ledger (op : operation) : Prop :=
  match op with
  | NewUser _ _ => True
  | ApplyDelta _ _ _ _ => True
  | Generate v _ _ =>
      match v with
      | WithAuth | Supabase | History | Api => True
      | WithCredits | FirstTry | Second => False
      end
  | Purchase _ _ _ => True
  | PurchasePackage _ _ => False
  | Checkout _ => False
  end.

(** ** Invariants *)

Definition non_negative (d : db) : Prop :=
  forall u p, user_profiles d !! u = Some p -> 0 <= credits p.

Definition reconciled (d : db) : Prop :=
  forall u p, user_profiles d !! u = Some p -> credits p = ledger_sum d u.

(** The id of a new row of auth.users is in no row of credit_transactions,
    whose user_id references auth.users(id). *)
Definition unseen (id : string) (d : db) : Prop :=
  Forall (fun t => tx_user_id t <> id) (credit_transactions d).

Inductive ledger_step : world -> world -> Prop :=
| step_new_user id email w :
    unseen id (w_db w) ->
    ledger_step w (apply (NewUser id email) w)
| step_through op w :
    (forall id email, op <> NewUser id email) ->
    through_ledger op ->
    ledger_step w (apply op w).

(** A handler respects a discipline on its calls: every call it makes is
    [allowed], whatever the replies, as long as they are as [told]. *)
Section Respects.
Variable allowed : call -> Prop.
Variable told : forall c, outcome (reply_of c) -> Prop.

Inductive respects {A : Type} : prog A -> Prop :=
| respects_return a : respects (Return a)
| respects_throw msg : respects (Throw msg)
| respects_call c k :
    allowed c ->
    (forall o, told c o -> respects (k o)) ->
    respects (Call c k).
End Respects.

(** On every path of the handler, a call of the first kind comes before
    any call of the second kind. *)
Section Ordered.
Variable first second : call -> bool.

Inductive ordered {A : Type} : prog A -> Prop :=
| ordered_return a : ordered (Return a)
| ordered_throw msg : ordered (Throw msg)
| ordered_first c k : first c = true -> ordered (Call c k)
| ordered_other c k :
    first c = false -> second c = false ->
    (forall o, ordered (k o)) ->
    ordered (Call c k).
End Ordered.

(** For non-negative balances: no UPDATE writes a negative balance, and a
    SELECT of a profile shows none. *)
Definition writes_non_negative (c : call) : Prop :=
  match c with
  | UpdateCredits _ v _ => 0 <= v
  | _ => True
  end.

Definition reads_non_negative (c : call) : outcome (reply_of c) -> Prop :=
  match c return outcome (reply_of c) -> Prop with
  | SelectProfile _ => fun o =>
      match o with
      | Resolved r => forall p, sb_data r = Some p -> 0 <= credits p
      | Rejected _ => True
      end
  | SelectProfileByEmail _ => fun o =>
      match o with
      | Resolved r => forall row, sb_data r = Some row -> 0 <= credits (snd row)
      | Rejected _ => True
      end
  | _ => fun _ => True
  end.

(** For a request that charges nothing: it only reads profiles, runs the
    model and inserts generations; and a failing provider call rejects. *)
Definition charges_nothing (c : call) : Prop :=
  match c with
  | SelectProfile _ | InsertGeneration _ | ReplicateRun _ | ConsoleError _ => True
  | _ => False
  end.

Definition provider_as_given (c : call) : outcome (reply_of c) -> Prop :=
  match c return outcome (reply_of c) -> Prop with
  | ReplicateRun (Failure msg) => fun o => o = Rejected msg
  | _ => fun _ => True
  end.

(** For a request that is turned away: it only reads profiles; and a read
    of the profile of [id] shows [p]. *)
Definition reads_only (c : call) : Prop :=
  match c with
  | SelectProfile _ | ConsoleError _ => True
  | _ => False
  end.

Definition reads_profile (id : string) (p : user_profile) (c : call)
    : outcome (reply_of c) -> Prop :=
  match c return outcome (reply_of c) -> Prop with
  | SelectProfile u => fun o =>
      match o with
      | Resolved r => forall q, sb_data r = Some q -> u = id -> q = p
      | Rejected _ => True
      end
  | _ => fun _ => True
  end.

(** For reconciliation: no UPDATE of the balance and no INSERT into
    credit_transactions from the handler itself. *)
Definition writes_through_ledger (c : call) : Prop :=
  match c with
  | UpdateCredits _ _ _ => False
  | InsertTransaction _ => False
  | _ => True
  end.

Definition told_nothing (c : call) (o : outcome (reply_of c)) : Prop := True.

(** ** Sample data *)

Definition alice : string := "7d0e6c1a-alice".

Definition alice_with (n : Z) : db :=
  mkDb {[ alice := mkProfile "alice@example.com" n 0 ]}
       [mkTransaction alice n "bonus" "Welcome bonus"] [].

(** A world where every Supabase request goes through. *)
Definition quiet (d : db) : world := mkWorld d [] [] [].

Definition upload : request :=
  mkRequest (Token alice) true [] "data:image/png;base64,iVBORw0KGgo=".

Definition picture : json := JStr "https://replicate.delivery/out.png".

(** The response carries the balance [n] in one of its fields. *)
Definition reports_balance (res : response) (n : Z) : Prop :=
  exists k, field k (body res) = Some (JNum n).

(** ** The round trip of the specification *)

Definition is_refund (t : credit_transaction) : bool :=
  String.eqb (transaction_type t) "refund".

Definition is_failed_record (g : generation) : bool :=
  String.eqb (gen_status g) "failed" &&
  match image_url g with
  | None => true
  | Some _ => false
  end.

(** Reserve, fail, refund: what the specification expects of a request of
    alice, balance [n], whose provider call fails: the balance is [n]
    again, a refund row was written, and the one row of the generations is a
    failed one without result. *)
Definition refunded_with_failed_record (v : variant) (n : Z) (msg : string)
    : Prop :=
  let done := run (generate v upload (Failure msg)) (quiet (alice_with n)) in
  balance (w_db (snd done)) alice = Some n /\
  existsb is_refund (credit_transactions (w_db (snd done))) = true /\
  exists g, generations (w_db (snd done)) = [g] /\ is_failed_record g = true.

(** ** Answers of a handler *)

(** Every call of the handler is [allowed], whatever the replies, as long as
    they are as [told], and it ends as [post] says. *)
Section Answers.
Variable allowed : call -> Prop.
Variable told : forall c, outcome (reply_of c) -> Prop.

Inductive answers {A : Type} (post : outcome A -> Prop) : prog A -> Prop :=
| answers_return a : post (Resolved a) -> answers post (Return a)
| answers_throw msg : post (Rejected msg) -> answers post (Throw msg)
| answers_call c k :
    allowed c ->
    (forall o, told c o -> answers post (k o)) ->
    answers post (Call c k).
End Answers.

Definition any_call (c : call) : Prop := True.

(** A read of a profile shows a row of the tables [d]; the provider does
    what it was given to do; console.error returns. *)
Definition reads_stored (d : db) (c : call) : outcome (reply_of c) -> Prop :=
  match c return outcome (reply_of c) -> Prop with
  | SelectProfile u => fun o =>
      match o with
      | Resolved r => forall q, sb_data r = Some q -> user_profiles d !! u = Some q
      | Rejected _ => True
      end
  | SelectProfileByEmail e => fun o =>
      match o with
      | Resolved r =>
          match sb_data r with
          | Some row => sb_data (select_profile_by_email e d) = Some row
          | None => True
          end
      | Rejected _ => True
      end
  | ReplicateRun r => fun o =>
      o = match r with
          | Output x => Resolved x
          | Failure msg => Rejected msg
          end
  | ConsoleError _ => fun o => o = Resolved tt
  | _ => fun _ => True
  end.

(** Calls that leave the tables alone. *)
Definition leaves_tables (c : call) : Prop :=
  match c with
  | SelectProfile _ | SelectProfileByEmail _ | ReplicateRun _ | ConsoleError _ => True
  | _ => False
  end.

Definition is_db_call (c : call) : bool :=
  match c with
  | ReplicateRun _ | ConsoleError _ => false
  | _ => true
  end.

(** The world after a Supabase request: the request is in the trace and its
    fault is used up. *)
Definition after_request (w : world) (c : call) (d : db) (fs : list fault) : world :=
  mkWorld d (w_trace w ++ [c]) (w_errlog w) fs.

Definition console_returns (c : call) : outcome (reply_of c) -> Prop :=
  match c return outcome (reply_of c) -> Prop with
  | ConsoleError _ => fun o => o = Resolved tt
  | _ => fun _ => True
  end.

(** No other profile has the email [e] of the profile of [id]. *)
Definition only_email (e id : string) (d : db) : Prop :=
  forall u q, user_profiles d !! u = Some q -> email q = e -> u = id.

(** A checkout of 25 credits, once, by the customer of alice's email. *)
Definition starter_checkout : StripeWebhook.checkout_session :=
  StripeWebhook.mkSession true (Some "alice@example.com") 25 1.

(** ** server (1try).js: buying a package *)
Module ServerFirstTryCredits.

(** POST /api/purchase-credits, for a body with a packageId.  The row of
    credit_packages the route selects is an argument, as its name and its
    credits ([None]: no package with that id); the row written to
    credit_transactions holds the credits of the package. *)
Definition purchase_credits (package : option (string * Z)) (userId : string)
    : prog response :=
  try_catch
    (match package with
     | None => json_response 404 [("error", JStr "Package not found")]
     | Some (name, package_credits) =>
         r <- await (SelectProfile userId) ;;
         match sb_error r, sb_data r with
         | Some _, _ => json_response 404 [("error", JStr "User not found")]
         | None, None => Throw "Cannot read properties of null"
         | None, Some profile =>
             let newCredits := credits profile + package_credits in
             updated <- await (UpdateCredits userId newCredits false) ;;
             match sb_error updated with
             | Some _ =>
                 console_error "Error updating credits:" ;;
                 json_response 500 [("error", JStr "Failed to update credits")]
             | None =>
                 recorded <- await (InsertTransaction
                              (mkTransaction userId package_credits "purchase"
                                 ("Purchased " +:+ name))) ;;
                 match sb_error recorded with
                 | Some _ => console_error "Error recording transaction:"
                 | None => Return tt
                 end ;;
                 json_response 200
                   [("message", JStr "Credits purchased successfully");
                    ("credits", JNum newCredits);
                    ("purchased", JNum package_credits)]
             end
         end
     end)
    (fun _ =>
       console_error "Purchase credits error:" ;;
       json_response 500 [("error", JStr "Internal server error")]).

Definition post_purchase_credits (req : request) (package : option (string * Z))
    : prog response :=
  match ServerFirstTry.authenticateToken req with
  | inl res => Return res
  | inr userId => purchase_credits package userId
  end.

End ServerFirstTryCredits.

(** The balance of the account is the sum of its rows. *)
Definition reconciled_at (u : string) (d : db) : Prop :=
  forall p, user_profiles d !! u = Some p -> credits p = ledger_sum d u.

(** ** The credits schema (unnamed/part_002) *)

(** FOUND after an UPDATE ... WHERE user_id = u: a row has that id. *)
Definition row_found (u : string) : txn bool :=
  fun d => SqlOk (bool_decide (is_Some (user_profiles d !! u))) d.

(** add_credits_to_user(target_user_id, credits_to_add, transaction_id) *)
Definition add_credits_to_user (target_user_id : string) (credits_to_add : Z)
    : txn bool :=
  update_credits_by target_user_id credits_to_add ;;;
  found <~ row_found target_user_id ;;
  if (found : bool) then txn_ret true else txn_ret false.

(** ** Counting calls *)

(** On every path of the handler, at most [n] of its calls are of the kind
    [counted]. *)
Section AtMost.
Variable counted : call -> bool.

Inductive at_most {A : Type} : nat -> prog A -> Prop :=
| at_most_return n a : at_most n (Return a)
| at_most_throw n msg : at_most n (Throw msg)
| at_most_counted n c k :
    (forall o, at_most n (k o)) ->
    at_most (S n) (Call c k)
| at_most_other n c k :
    counted c = false ->
    (forall o, at_most n (k o)) ->
    at_most n (Call c k).
End AtMost.

(** The request is answered: the handler ends with a response. *)
Definition answered {A} (o : outcome A) : Prop :=
  match o with
  | Resolved _ => True
  | Rejected _ => False
  end.

(** What a middleware hands to the route, on the tables [d]: the id of the
    token with the profile stored under it, or the answer 401; the tables
    are left as they were. *)
Definition hands_over (req : request) (d : db)
    (done : outcome (response + string * user_profile) * world) : Prop :=
  w_db (snd done) = d /\
  match fst done with
  | Resolved (inr (id, user)) =>
      req_token req = Token id /\ user_profiles d !! id = Some user
  | Resolved (inl res) => status res = 401
  | Rejected _ => False
  end.

(** ** The seed of a request *)

(** The routes that take a seed from the form and trim it inside their try
    block. *)
Definition takes_seed (v : variant) : bool :=
  match v with
  | WithAuth | WithCredits | Supabase | History => true
  | FirstTry | Second | Api => false
  end.

(** Calls that are not the run of the model. *)
Definition not_provider (c : call) : Prop :=
  match c with
  | ReplicateRun _ => False
  | _ => True
  end.

(** The model was run for the request: the trace has one more provider call
    after it than before. *)
Definition provider_called {A} (w : world) (done : outcome A * world) : Prop :=
  provider_calls (w_trace (snd done)) <> provider_calls (w_trace w).
(** A form with the field seed sent twice: multer makes an array of it. *)
Definition seeded_twice : request :=
  mkRequest (Token alice) true [("seed", JArr [JStr "1"; JStr "2"])]
    "data:image/png;base64,iVBORw0KGgo=".

(** * Properties *)

(** ** The SQL functions *)

Lemma in_int4_spec z : in_int4 z = true <-> int4_min <= z <= int4_max.
Proof. unfold in_int4. rewrite andb_true_iff, !Z.leb_le. tauto. Qed.

(** update_user_credits, case by case. *)
Lemma update_user_credits_eq u change ty desc d :
  update_user_credits u change ty desc d =
  match user_profiles d !! u with
  | None => SqlOk true (add_transaction d (mkTransaction u change ty desc))
  | Some p =>
      if in_int4 (credits p + change)
      then if (change <? 0) && (credits p + change <? 0)
           then SqlOk false d
           else SqlOk true
                  (add_transaction
                     (set_profiles d
                        (<[u := set_credits p (credits p + change)]> (user_profiles d)))
                     (mkTransaction u change ty desc))
      else SqlError "integer out of range"
  end.
Proof.
  unfold update_user_credits, txn_bind, select_credits_into, balance,
    update_credits_by, insert_credit_transaction, int4_add, txn_ret, raise.
  destruct (user_profiles d !! u) as [p|] eqn:Hp; simpl.
  - destruct (change <? 0) eqn:Hneg; simpl.
    + destruct (in_int4 (credits p + change)) eqn:Hr; simpl; [|reflexivity].
      destruct (credits p + change <? 0); simpl; [reflexivity|].
      rewrite Hp, Hr. reflexivity.
    + rewrite Hp. destruct (in_int4 (credits p + change)); reflexivity.
  - rewrite Hp. reflexivity.
Qed.

Lemma handle_new_user_eq id e d :
  handle_new_user id e d =
  match user_profiles d !! id with
  | Some _ => SqlError "duplicate key value"
  | None =>
      SqlOk tt
        (add_transaction
           (set_profiles d (<[id := mkProfile e 10 0]> (user_profiles d)))
           (mkTransaction id 10 "bonus" "Welcome bonus - 10 free credits"))
  end.
Proof.
  unfold handle_new_user, txn_bind, insert_profile, insert_credit_transaction.
  destruct (user_profiles d !! id); reflexivity.
Qed.

(** ** Runs and invariants *)

Lemma run_step {A} (p : prog A) w :
  run p w = run (fst (step p w)) (snd (step p w)).
Proof.
  destruct p as [a|msg|c k]; simpl; try reflexivity.
  destruct (exec_call c w); reflexivity.
Qed.

Section Invariant.
Variable Inv : world -> Prop.
Variable allowed : call -> Prop.
Variable told : forall c, outcome (reply_of c) -> Prop.

Hypothesis allowed_keeps :
  forall c w, Inv w -> allowed c -> Inv (snd (exec_call c w)).
Hypothesis told_holds :
  forall c w, Inv w -> told c (fst (exec_call c w)).

Lemma run_respects {A} (p : prog A) :
  respects allowed told p ->
  forall w, Inv w -> Inv (snd (run p w)).
Proof.
  induction 1 as [a|msg|c k Hc Hk IH]; intros w HI; simpl; try assumption.
  destruct (exec_call c w) as [o w'] eqn:E.
  apply IH.
  - specialize (told_holds c w HI). rewrite E in told_holds. exact told_holds.
  - specialize (allowed_keeps c w HI Hc). rewrite E in allowed_keeps.
    exact allowed_keeps.
Qed.
End Invariant.

(** A call leaves the tables as they are or as the database request leaves
    them. *)
Lemma exec_call_db c w :
  w_db (snd (exec_call c w)) = w_db w \/
  w_db (snd (exec_call c w)) = snd (db_request c (w_db w)).
Proof.
  destruct c; unfold exec_call, next_fault; simpl;
    try (destruct (w_faults w) as [|[| |] fs]; simpl; tauto); tauto.
Qed.

(** The reply of a Supabase request is the answer of the database, the
    failure object, or a rejection. *)
Lemma exec_call_reply c w :
  is_provider_call c = false ->
  fst (exec_call c w) = Resolved (fst (db_request c (w_db w))) \/
  fst (exec_call c w) = Resolved (request_failed c) \/
  fst (exec_call c w) = Rejected "fetch failed".
Proof.
  destruct c; unfold exec_call, next_fault; simpl; intros Hc;
    try discriminate;
    try (destruct (w_faults w) as [|[| |] fs]; simpl; tauto); tauto.
Qed.

Lemma non_negative_insert d u p :
  non_negative d -> 0 <= credits p ->
  non_negative (set_profiles d (<[u := p]> (user_profiles d))).
Proof.
  intros Hd Hp u' p'. simpl. rewrite lookup_insert.
  case_decide; [intros [= <-]; exact Hp | apply Hd].
Qed.

Lemma rpc_non_negative u change ty desc d :
  non_negative d ->
  non_negative (snd (rpc_update_user_credits u change ty desc d)).
Proof.
  intros Hd. unfold rpc_update_user_credits, commit.
  destruct (in_int4 change); [|exact Hd].
  rewrite update_user_credits_eq.
  destruct (user_profiles d !! u) as [p|] eqn:Hp; simpl.
  - destruct (in_int4 (credits p + change)); simpl; [|exact Hd].
    destruct ((change <? 0) && (credits p + change <? 0)) eqn:Hc; simpl;
      [exact Hd|].
    intros u' p'. simpl. rewrite lookup_insert.
    case_decide; [|apply Hd].
    intros [= <-]. simpl.
    apply andb_false_iff in Hc as [Hc|Hc].
    + apply Z.ltb_ge in Hc. specialize (Hd u p Hp). lia.
    + apply Z.ltb_ge in Hc. exact Hc.
  - exact Hd.
Qed.

Lemma db_request_non_negative c d :
  non_negative d -> writes_non_negative c ->
  non_negative (snd (db_request c d)).
Proof.
  intros Hd Hc. destruct c; simpl in *; try exact Hd.
  - apply rpc_non_negative, Hd.
  - unfold update_credits. destruct (in_int4 v); [|exact Hd].
    destruct (user_profiles d !! u) as [p|]; simpl; [|exact Hd].
    apply non_negative_insert; [exact Hd|exact Hc].
  - unfold update_total_purchased. destruct (in_int4 v); [|exact Hd].
    destruct (user_profiles d !! u) as [p|] eqn:Hp; simpl; [|exact Hd].
    apply non_negative_insert; [exact Hd|]. simpl. exact (Hd u p Hp).
Qed.

Lemma exec_call_non_negative c w :
  non_negative (w_db w) -> writes_non_negative c ->
  non_negative (w_db (snd (exec_call c w))).
Proof.
  intros Hd Hc. destruct (exec_call_db c w) as [-> | ->]; [exact Hd|].
  apply db_request_non_negative; assumption.
Qed.

Lemma select_by_email_lookup e d id p :
  sb_data (select_profile_by_email e d) = Some (id, p) ->
  user_profiles d !! id = Some p.
Proof.
  unfold select_profile_by_email.
  destruct (map_to_list _) as [|row [|? ?]] eqn:E; simpl; try discriminate.
  intros [= ->].
  assert (Hin : (id, p) ∈ map_to_list
            (filter (fun kv => email (snd kv) = e) (user_profiles d))).
  { rewrite E. apply list_elem_of_singleton. reflexivity. }
  apply elem_of_map_to_list in Hin.
  apply map_lookup_filter_Some in Hin. tauto.
Qed.

Lemma exec_call_reads_non_negative c w :
  non_negative (w_db w) -> reads_non_negative c (fst (exec_call c w)).
Proof.
  intros Hd. destruct c; cbn [reads_non_negative]; try exact I.
  - destruct (exec_call_reply (SelectProfile u) w eq_refl) as [E|[E|E]];
      rewrite E; simpl; try exact I; try discriminate.
    unfold select_profile. intros p.
    destruct (user_profiles (w_db w) !! u) as [q|] eqn:Hq; simpl;
      [|discriminate].
    intros [= <-]. exact (Hd u q Hq).
  - destruct (exec_call_reply (SelectProfileByEmail e) w eq_refl) as [E|[E|E]];
      rewrite E; simpl; try exact I; try discriminate.
    intros [id p] Hrow. simpl.
    apply select_by_email_lookup in Hrow. exact (Hd id p Hrow).
Qed.

(** ** The handlers respect the disciplines *)

Ltac use_told :=
  repeat match goal with
  | H : forall p, sb_data ?r = Some p -> _, E : sb_data ?r = Some ?q |- _ =>
      pose proof (H q E); clear H
  | H : forall p, Some ?q = Some p -> _ |- _ =>
      pose proof (H q eq_refl); clear H
  | H : ?x = ?x -> _ |- _ => specialize (H eq_refl)
  | H : (_ <? _) = false |- _ => apply Z.ltb_ge in H
  | H : (_ <=? _) = false |- _ => apply Z.leb_gt in H
  | H : (_ || _) = false |- _ => apply orb_false_iff in H as [? ?]
  end.

Ltac respects_step :=
  lazymatch goal with
  | |- respects _ _ (Return _) => apply respects_return
  | |- respects _ _ (Throw _) => apply respects_throw
  | |- respects _ _ (Call _ _) =>
      apply respects_call;
      [ cbn in *; use_told; cbn in *; try exact I; try lia; try (subst; lia)
      | let r := fresh "r" in let msg := fresh "msg" in let T := fresh "T" in
        intros [r|msg] T; cbn in T; try discriminate T ]
  | |- respects _ _ ?p =>
      match p with
      | context [match ?x with _ => _ end] => destruct x eqn:?
      end
  end.

Ltac respects_auto := cbn; repeat (respects_step; cbn).

Lemma generate_non_negative v req provider :
  respects writes_non_negative reads_non_negative (generate v req provider).
Proof.
  destruct v; unfold generate, ServerWithAuth.post_generate_headshot,
    ServerWithCredits.post_generate_headshot,
    ServerSupabase.post_generate_headshot,
    ServerHistory.post_generate_headshot, ServerSecond.post_generate,
    ServerFirstTry.post_generate_headshot, ApiGenerateHeadshot.handler,
    protected, authenticateUser, ServerWithCredits.authenticateToken,
    ServerFirstTry.authenticateToken, ServerSecond.authenticateUser,
    ServerWithAuth.generate_headshot, ServerWithCredits.generate_headshot,
    ServerSupabase.generate_headshot, ServerHistory.generate_headshot,
    ServerFirstTry.generate_headshot, ServerSecond.generate,
    ServerWithCredits.image_url_of, check_seed, json_response, console_error,
    await.
  all: respects_auto.
Qed.

Lemma purchase_non_negative req amount plan :
  respects writes_non_negative reads_non_negative
    (ServerSupabase.post_credits_purchase req amount plan).
Proof.
  unfold ServerSupabase.post_credits_purchase, ServerSupabase.credits_purchase,
    protected, authenticateUser, json_response, console_error, await.
  respects_auto.
Qed.

Lemma purchase_package_non_negative req package :
  adds_credits (PurchasePackage req package) ->
  respects writes_non_negative reads_non_negative
    (ServerWithCredits.post_purchase_credits req package).
Proof.
  intros Hadd.
  unfold ServerWithCredits.post_purchase_credits,
    ServerWithCredits.purchase_credits, ServerWithCredits.authenticateToken,
    json_response, console_error, await.
  destruct package as [[name package_credits]|]; cbn in Hadd; respects_auto.
Qed.

Lemma checkout_non_negative session :
  adds_credits (Checkout session) ->
  respects writes_non_negative reads_non_negative (StripeWebhook.handler session).
Proof.
  intros Hadd. cbn in Hadd.
  unfold StripeWebhook.handler, json_response, console_error, await.
  respects_auto.
Qed.

Lemma handle_new_user_non_negative id e d :
  non_negative d -> non_negative (snd (commit (handle_new_user id e) d)).
Proof.
  intros Hd. unfold commit. rewrite handle_new_user_eq.
  destruct (user_profiles d !! id); simpl; [exact Hd|].
  intros u p. simpl. rewrite lookup_insert.
  case_decide; [intros [= <-]; simpl; lia | apply Hd].
Qed.

Lemma apply_non_negative op w :
  adds_credits op ->
  non_negative (w_db w) -> non_negative (w_db (apply op w)).
Proof.
  intros Hadd Hd.
  assert (Hrun : forall (A : Type) (p : prog A),
            respects writes_non_negative reads_non_negative p ->
            non_negative (w_db (snd (run p w)))).
  { intros A p Hp.
    apply (run_respects (fun w => non_negative (w_db w))
             writes_non_negative reads_non_negative
             exec_call_non_negative exec_call_reads_non_negative p Hp w Hd). }
  destruct op; cbn [apply].
  - simpl. apply handle_new_user_non_negative, Hd.
  - apply Hrun. unfold await. respects_auto.
  - apply Hrun, generate_non_negative.
  - apply Hrun, purchase_non_negative.
  - apply Hrun, purchase_package_non_negative, Hadd.
  - apply Hrun, checkout_non_negative, Hadd.
Qed.

(** C3. For every sequence of ledger operations (the signup bonus of
    handle_new_user, purchases that add credits, generation requests to any
    of the servers with their usage debit and refund, bare calls of
    update_user_credits), run one after the other from tables where no
    balance is negative, no stored balance is negative after any operation
    of the sequence: the property holds after every prefix of it. *)
Theorem balance_never_negative (ops done : list operation) (w : world)
    (Hops : Forall adds_credits ops)
    (Hstart : non_negative (w_db w))
    (Hprefix : done `prefix_of` ops) :
  non_negative (w_db (apply_all done w)).
Proof.
  assert (Hdone : Forall adds_credits done).
  { destruct Hprefix as [rest ->]. apply Forall_app in Hops. tauto. }
  clear Hops Hprefix. revert w Hstart.
  induction Hdone as [|op done' Hop _ IH]; intros w Hstart; simpl.
  - exact Hstart.
  - apply IH, apply_non_negative; assumption.
Qed.

Lemma balance_never_negative_witness :
  non_negative (w_db (apply_all
    [NewUser "b" "bob@example.com";
     Generate WithCredits upload (Output picture)]
    (quiet (alice_with 1)))).
Proof.
  apply (balance_never_negative
           [NewUser "b" "bob@example.com";
            Generate WithCredits upload (Output picture);
            Generate WithAuth upload (Failure "timeout")]).
  - repeat constructor.
  - intros u p. cbn [quiet alice_with w_db user_profiles].
    intros [_ <-]%lookup_singleton_Some. simpl. lia.
  - exists [Generate WithAuth upload (Failure "timeout")]. reflexivity.
Defined.

(** ** Calls in a quiet world *)

Lemma run_call {A} c (k : outcome (reply_of c) -> prog A) w :
  run (Call c k) w = run (k (fst (exec_call c w))) (snd (exec_call c w)).
Proof. simpl. destruct (exec_call c w); reflexivity. Qed.

Lemma exec_select_quiet u p w :
  w_faults w = [] -> user_profiles (w_db w) !! u = Some p ->
  exec_call (SelectProfile u) w =
  (Resolved (sb_ok p), traced w (SelectProfile u)).
Proof.
  intros Hf Hp. unfold exec_call, next_fault. simpl. rewrite Hf. simpl.
  unfold select_profile. rewrite Hp. destruct w; reflexivity.
Qed.

(** update_user_credits goes through when the balance covers the change and
    stays an INTEGER. *)
Lemma exec_rpc_quiet u change ty desc p w :
  w_faults w = [] -> user_profiles (w_db w) !! u = Some p ->
  int4_min <= change <= int4_max ->
  0 <= credits p + change <= int4_max ->
  exec_call (RpcUpdateUserCredits u change ty desc) w =
  (Resolved (sb_ok true),
   with_db (traced w (RpcUpdateUserCredits u change ty desc))
     (add_transaction
        (set_profiles (w_db w)
           (<[u := set_credits p (credits p + change)]> (user_profiles (w_db w))))
        (mkTransaction u change ty desc))).
Proof.
  intros Hf Hp Hc Hs. unfold exec_call, next_fault. simpl. rewrite Hf. simpl.
  unfold rpc_update_user_credits, commit.
  apply in_int4_spec in Hc. rewrite Hc, update_user_credits_eq, Hp.
  assert (Hr : in_int4 (credits p + change) = true).
  { apply in_int4_spec. unfold int4_min. lia. }
  rewrite Hr.
  replace (credits p + change <? 0) with false by (symmetry; apply Z.ltb_ge; lia).
  rewrite andb_false_r. reflexivity.
Qed.

Lemma exec_update_quiet u v returning p w :
  w_faults w = [] -> user_profiles (w_db w) !! u = Some p ->
  int4_min <= v <= int4_max ->
  exec_call (UpdateCredits u v returning) w =
  (Resolved (if returning then sb_ok (set_credits p v) else sb_null),
   with_db (traced w (UpdateCredits u v returning))
     (set_profiles (w_db w) (<[u := set_credits p v]> (user_profiles (w_db w))))).
Proof.
  intros Hf Hp Hv. unfold exec_call, next_fault. simpl. rewrite Hf. simpl.
  unfold update_credits. apply in_int4_spec in Hv. rewrite Hv, Hp. reflexivity.
Qed.

Lemma exec_insert_generation_quiet g w :
  w_faults w = [] ->
  exec_call (InsertGeneration g) w =
  (Resolved sb_null, with_db (traced w (InsertGeneration g)) (add_generation (w_db w) g)).
Proof.
  intros Hf. unfold exec_call, next_fault. simpl. rewrite Hf. reflexivity.
Qed.

Lemma exec_insert_transaction_quiet t w :
  w_faults w = [] ->
  exec_call (InsertTransaction t) w =
  (Resolved sb_null, with_db (traced w (InsertTransaction t)) (add_transaction (w_db w) t)).
Proof.
  intros Hf. unfold exec_call, next_fault. simpl. rewrite Hf. reflexivity.
Qed.

Lemma exec_replicate r w :
  exec_call (ReplicateRun r) w =
  (match r with Output o => Resolved o | Failure msg => Rejected msg end,
   traced w (ReplicateRun r)).
Proof. reflexivity. Qed.

Lemma exec_console label w :
  exec_call (ConsoleError label) w = (Resolved tt, logged w label).
Proof. reflexivity. Qed.

(** ** Runs in a quiet world *)

Ltac unfold_handlers :=
  unfold generate, ServerWithAuth.post_generate_headshot,
    ServerWithCredits.post_generate_headshot,
    ServerSupabase.post_generate_headshot,
    ServerHistory.post_generate_headshot, ServerSecond.post_generate,
    ServerFirstTry.post_generate_headshot, ApiGenerateHeadshot.handler,
    protected, authenticateUser, ServerWithCredits.authenticateToken,
    ServerFirstTry.authenticateToken, ServerSecond.authenticateUser,
    ServerWithAuth.generate_headshot, ServerWithCredits.generate_headshot,
    ServerSupabase.generate_headshot, ServerHistory.generate_headshot,
    ServerFirstTry.generate_headshot, ServerSecond.generate,
    ServerWithCredits.image_url_of, check_seed, json_response, console_error,
    await.

Ltac world_simpl :=
  cbn [w_db w_faults w_trace w_errlog traced with_db logged add_transaction
       add_generation set_profiles user_profiles credit_transactions
       generations fst snd bind try_catch sb_error sb_data sb_ok sb_null
       sb_fail negb credits set_credits].

Ltac side :=
  world_simpl;
  first [ eassumption | reflexivity | apply lookup_insert_eq
        | unfold int4_min, int4_max in *; lia ].

Ltac quiet_step :=
  rewrite run_call;
  first [ rewrite exec_replicate
        | rewrite exec_console
        | erewrite exec_select_quiet by side
        | erewrite exec_rpc_quiet by side
        | erewrite exec_update_quiet by side
        | erewrite exec_insert_generation_quiet by side
        | erewrite exec_insert_transaction_quiet by side ];
  world_simpl.

Ltac passes_check p :=
  replace (credits p <? 1) with false by (symmetry; apply Z.ltb_ge; lia);
  world_simpl.

(** ** A seed that is no string *)

Lemma exec_call_not_provider c w :
  not_provider c ->
  provider_calls (w_trace (snd (exec_call c w))) = provider_calls (w_trace w).
Proof.
  intros Hc. destruct c; cbn in Hc; try contradiction;
    unfold exec_call, next_fault; simpl;
    try (destruct (w_faults w) as [|[| |] fs]; simpl);
    unfold provider_calls; rewrite ?List.filter_app; simpl;
    rewrite ?app_nil_r; reflexivity.
Qed.

Lemma run_skips_provider {A} (p : prog A) w :
  respects not_provider told_nothing p ->
  provider_calls (w_trace (snd (run p w))) = provider_calls (w_trace w).
Proof.
  intros Hp.
  apply (run_respects
           (fun w' => provider_calls (w_trace w') = provider_calls (w_trace w))
           not_provider told_nothing); try assumption.
  - intros c w' HI Hc. rewrite exec_call_not_provider; assumption.
  - intros c w' _. exact I.
  - reflexivity.
Qed.

(** In the four routes that trim the seed, a request whose seed makes the
    trim throw never reaches the model, whatever else happens. *)
Lemma thrown_seed_skips_provider v req provider :
  takes_seed v = true -> seed_throws req = true ->
  respects not_provider told_nothing (generate v req provider).
Proof.
  intros Hv Hseed.
  destruct v; try discriminate Hv; unfold_handlers; rewrite Hseed;
    respects_auto.
Qed.

Lemma provider_called_seed v req provider w :
  takes_seed v = true ->
  provider_called w (run (generate v req provider) w) ->
  seed_throws req = false.
Proof.
  intros Hv Hcalled. destruct (seed_throws req) eqn:Hseed; [|reflexivity].
  exfalso. apply Hcalled. apply run_skips_provider.
  apply thrown_seed_skips_provider; assumption.
Qed.



(** C7, as stated, fails on both routes it is drawn from: with balance 1
    and a provider failure, server_with_auth.js refunds and writes no row of
    headshot_generations; the server of api/auth/session-status.js writes
    the failed row and no refund row (it had not deducted). *)
Lemma round_trip_without_failed_record :
  ~ refunded_with_failed_record WithAuth 1 "timeout" /\
  ~ refunded_with_failed_record Supabase 1 "timeout".
Proof.
  split.
  - intros (_ & _ & g & Hg & _). vm_compute in Hg. discriminate.
  - intros (_ & Hr & _). vm_compute in Hr. discriminate.
Qed.

(** C7, amended. For a balance N >= 1 and a request whose provider call
    is made and fails (the request reaches the model: the trim of its seed
    has not thrown before), all database requests going through:
    server_with_auth.js takes the balance to
    N - 1 and back to exactly N, writing the usage row of -1 and then the
    refund row of +1, and writes no row of headshot_generations; the server
    of api/auth/session-status.js leaves balance and credit_transactions
    untouched and writes exactly one row of headshot_generations, with status
    failed, no image_url and credits_used 0. *)
Theorem reserve_then_fail (req : request) (msg : string) (w : world)
    (id : string) (p : user_profile)
    (Htoken : req_token req = Token id)
    (Hfile : req_file req = true)
    (Hquiet : w_faults w = [])
    (Haccount : user_profiles (w_db w) !! id = Some p)
    (Hbalance : 1 <= credits p <= int4_max)
    (Hcalled : provider_called w
                 (run (ServerWithAuth.post_generate_headshot req (Failure msg)) w)) :
  let refunded := run (ServerWithAuth.post_generate_headshot req (Failure msg)) w in
  let recorded := run (ServerSupabase.post_generate_headshot req (Failure msg)) w in
  (balance (w_db (snd refunded)) id = Some (credits p) /\
   credit_transactions (w_db (snd refunded)) =
     (credit_transactions (w_db w) ++
        [mkTransaction id (-1) "usage" "Professional headshot generation";
         mkTransaction id 1 "refund" "Refund for failed generation"])%list /\
   generations (w_db (snd refunded)) = generations (w_db w)) /\
  (user_profiles (w_db (snd recorded)) = user_profiles (w_db w) /\
   credit_transactions (w_db (snd recorded)) = credit_transactions (w_db w) /\
   generations (w_db (snd recorded)) =
     (generations (w_db w) ++
        [mkGeneration id None (JObj (req_body req)) 0 "failed"])%list).
Proof.
  intros refunded recorded. subst refunded recorded.
  pose proof (provider_called_seed WithAuth req (Failure msg) w eq_refl Hcalled)
    as Hseed.
  split.
  - unfold_handlers. rewrite Htoken, Hfile, Hseed. world_simpl.
    quiet_step. passes_check p.
    do 4 quiet_step.
    cbn [run]. world_simpl. unfold balance. world_simpl.
    rewrite lookup_insert_eq.
    cbn [fmap option_fmap option_map credits set_credits].
    replace (credits p + -1 + 1) with (credits p) by lia.
    rewrite <- app_assoc. repeat split.
  - unfold_handlers. rewrite Htoken, Hfile. world_simpl.
    quiet_step. passes_check p.
    destruct (seed_throws req); world_simpl; repeat quiet_step;
      cbn [run]; world_simpl; repeat split.
Qed.

(** server 2.js deducts first as well, and its catch block gives nothing
    back: after a provider failure the account stays charged. *)
Lemma second_server_keeps_the_debit :
  let done := run (generate Second upload (Failure "timeout")) (quiet (alice_with 2)) in
  balance (w_db (snd done)) alice = Some 1 /\
  existsb is_refund (credit_transactions (w_db (snd done))) = false /\
  succeeded (fst done) = false.
Proof. vm_compute. repeat split. Qed.

Lemma reserve_then_fail_witness :
  let refunded := run (ServerWithAuth.post_generate_headshot upload (Failure "timeout"))
                    (quiet (alice_with 2)) in
  let recorded := run (ServerSupabase.post_generate_headshot upload (Failure "timeout"))
                    (quiet (alice_with 2)) in
  (balance (w_db (snd refunded)) alice = Some 2 /\
   credit_transactions (w_db (snd refunded)) =
     (credit_transactions (alice_with 2) ++
        [mkTransaction alice (-1) "usage" "Professional headshot generation";
         mkTransaction alice 1 "refund" "Refund for failed generation"])%list /\
   generations (w_db (snd refunded)) = generations (alice_with 2)) /\
  (user_profiles (w_db (snd recorded)) = user_profiles (alice_with 2) /\
   credit_transactions (w_db (snd recorded)) = credit_transactions (alice_with 2) /\
   generations (w_db (snd recorded)) =
     (generations (alice_with 2) ++
        [mkGeneration alice None (JObj (req_body upload)) 0 "failed"])%list).
Proof.
  apply (reserve_then_fail upload "timeout" (quiet (alice_with 2)) alice
           (mkProfile "alice@example.com" 2 0)).
  - reflexivity.
  - reflexivity.
  - reflexivity.
  - reflexivity.
  - simpl. unfold int4_max. lia.
  - unfold provider_called. vm_compute. intros H. discriminate H.
Defined.

Lemma provider_calls_traced w c :
  is_provider_call c = false ->
  provider_calls (w_trace (traced w c)) = provider_calls (w_trace w).
Proof.
  intros Hc. unfold provider_calls. simpl.
  rewrite List.filter_app. simpl. rewrite Hc. apply app_nil_r.
Qed.

(** C5. In every one of the seven generation routes, a request with its
    image by an account whose balance is 0, the read of the profile going
    through, is answered "Insufficient credits"; the provider is not invoked
    and the tables are left as they were: no row of credit_transactions and
    no row of the generations is written. *)
Theorem insufficient_balance_short_circuit (v : variant) (req : request)
    (provider : provider_result) (w : world) (id : string) (p : user_profile)
    (Htoken : req_token req = Token id)
    (Hfile : req_file req = true)
    (Hquiet : w_faults w = [])
    (Haccount : user_profiles (w_db w) !! id = Some p)
    (Hbalance : credits p = 0) :
  let done := run (generate v req provider) w in
  (exists res, fst done = Resolved res /\ insufficient_balance res = true) /\
  provider_calls (w_trace (snd done)) = provider_calls (w_trace w) /\
  w_db (snd done) = w_db w.
Proof.
  intros done. subst done.
  destruct v; unfold_handlers; rewrite Htoken, ?Hfile; world_simpl;
    quiet_step; rewrite Hbalance; cbn [Z.ltb Z.compare bind try_catch run];
    world_simpl;
    (split; [eexists; split; [reflexivity|reflexivity]|]);
    (split; [apply provider_calls_traced; reflexivity | reflexivity]).
Qed.

Lemma insufficient_balance_short_circuit_witness :
  let done := run (generate WithCredits upload (Output picture))
                (quiet (alice_with 0)) in
  (exists res, fst done = Resolved res /\ insufficient_balance res = true) /\
  provider_calls (w_trace (snd done)) = provider_calls (w_trace (quiet (alice_with 0))) /\
  w_db (snd done) = w_db (quiet (alice_with 0)).
Proof.
  apply (insufficient_balance_short_circuit WithCredits upload (Output picture)
           (quiet (alice_with 0)) alice (mkProfile "alice@example.com" 0 0)).
  - reflexivity.
  - reflexivity.
  - reflexivity.
  - reflexivity.
  - reflexivity.
Defined.

(** C10, as stated, fails on the second route it is drawn from: the error
    response of the server of api/auth/session-status.js has the fields
    error and details only, and reports no balance. *)
Lemma error_response_without_balance :
  exists res,
    fst (run (generate Supabase upload (Failure "timeout")) (quiet (alice_with 3)))
      = Resolved res /\
    ~ reports_balance res 3.
Proof.
  exists (mkResponse 500 [("error", JStr "Failed to generate headshot");
                          ("details", JStr "timeout")]).
  split; [vm_compute; reflexivity|].
  intros [k Hk]. cbn [body field] in Hk.
  destruct (String.eqb k "error"); [discriminate|].
  destruct (String.eqb k "details"); discriminate.
Qed.

Lemma exec_call_charges_nothing c w :
  charges_nothing c ->
  user_profiles (w_db (snd (exec_call c w))) = user_profiles (w_db w) /\
  credit_transactions (w_db (snd (exec_call c w))) = credit_transactions (w_db w).
Proof.
  intros Hc. destruct (exec_call_db c w) as [-> | ->]; [tauto|].
  destruct c; cbn in Hc; try contradiction; simpl; tauto.
Qed.

Lemma exec_call_provider_as_given c w :
  provider_as_given c (fst (exec_call c w)).
Proof. destruct c as [| | | | | | |[o|msg]|]; simpl; exact I || reflexivity. Qed.

Lemma late_debit_charges_nothing v req msg :
  debits_first v = false ->
  respects charges_nothing provider_as_given (generate v req (Failure msg)).
Proof.
  destruct v; try discriminate; intros _; unfold_handlers; respects_auto.
Qed.

(** C10, amended. In the routes that deduct after the model has run
    (server_with_credits.js, the servers of api/auth/session-status.js and
    api/auth/history.js, server (1try).js, api/auth/generate-headshot.js), a
    request whose provider call throws leaves every balance and
    credit_transactions as they were, whatever else fails: nothing is
    charged and no usage row is written.  The error response of
    server_with_credits.js reports the balance read before the request; this
    is shown for a request with its image that passed the balance check, the
    read of the profile going through. *)
Theorem failed_generation_not_charged (v : variant) (req : request)
    (msg : string) (w : world)
    (Hlate : debits_first v = false) :
  let done := run (generate v req (Failure msg)) w in
  user_profiles (w_db (snd done)) = user_profiles (w_db w) /\
  credit_transactions (w_db (snd done)) = credit_transactions (w_db w) /\
  (forall id p,
     v = WithCredits ->
     req_token req = Token id -> req_file req = true -> w_faults w = [] ->
     user_profiles (w_db w) !! id = Some p -> 1 <= credits p ->
     exists res, fst done = Resolved res /\ status res = 500 /\
       field "creditsRemaining" (body res) = Some (JNum (credits p))).
Proof.
  intros done. subst done.
  assert (Hsame :
    user_profiles (w_db (snd (run (generate v req (Failure msg)) w)))
      = user_profiles (w_db w) /\
    credit_transactions (w_db (snd (run (generate v req (Failure msg)) w)))
      = credit_transactions (w_db w)).
  { apply (run_respects
             (fun w' => user_profiles (w_db w') = user_profiles (w_db w) /\
                        credit_transactions (w_db w') = credit_transactions (w_db w))
             charges_nothing provider_as_given).
    - intros c w' [H1 H2] Hc.
      destruct (exec_call_charges_nothing c w' Hc) as [-> ->]. tauto.
    - intros c w' _. apply exec_call_provider_as_given.
    - apply late_debit_charges_nothing, Hlate.
    - tauto. }
  destruct Hsame as [Hprofiles Hledger].
  split; [exact Hprofiles|]. split; [exact Hledger|].
  - intros id p -> Htoken Hfile Hquiet Haccount Hbalance.
    unfold_handlers. rewrite Htoken, Hfile. world_simpl.
    quiet_step. passes_check p.
    destruct (seed_throws req); world_simpl; repeat quiet_step;
      cbn [run]; world_simpl; eexists; (split; [reflexivity|]);
      split; reflexivity.
Qed.

Lemma failed_generation_not_charged_witness :
  let done := run (generate WithCredits upload (Failure "timeout"))
                (quiet (alice_with 3)) in
  user_profiles (w_db (snd done)) = user_profiles (alice_with 3) /\
  credit_transactions (w_db (snd done)) = credit_transactions (alice_with 3) /\
  exists res, fst done = Resolved res /\ status res = 500 /\
    field "creditsRemaining" (body res) = Some (JNum 3).
Proof.
  destruct (failed_generation_not_charged WithCredits upload "timeout"
              (quiet (alice_with 3)) eq_refl) as (Hprofiles & Hledger & Hreport).
  split; [exact Hprofiles|]. split; [exact Hledger|].
  apply (Hreport alice (mkProfile "alice@example.com" 3 0)).
  - reflexivity.
  - reflexivity.
  - reflexivity.
  - reflexivity.
  - reflexivity.
  - simpl. lia.
Defined.

(** C9. The failing input: server_with_auth.js, balance 1, the provider
    call rejects, and the refund request resolves to an object with an
    error.  The catch block awaits the refund inside try/catch and never
    looks at what it resolves to: the server log has the line of the
    provider failure only, the response is the ordinary 500, and the account
    stays charged (balance 0, a usage row and no refund row). *)
Theorem refund_error_swallowed :
  let w := mkWorld (alice_with 1) [] [] [NoFault; NoFault; ReturnsError] in
  let done := run (ServerWithAuth.post_generate_headshot upload (Failure "timeout")) w in
  fst done = Resolved (mkResponse 500
    [("error", JStr "Failed to generate headshot"); ("details", JStr "timeout")]) /\
  w_errlog (snd done) = ["Error generating headshot:"] /\
  balance (w_db (snd done)) alice = Some 0 /\
  existsb is_refund (credit_transactions (w_db (snd done))) = false.
Proof. vm_compute. repeat split. Qed.

(** Only a refund request that rejects reaches the log, next to the same
    response. *)
Lemma refund_rejection_logged :
  let w := mkWorld (alice_with 1) [] [] [NoFault; NoFault; Rejects] in
  let done := run (ServerWithAuth.post_generate_headshot upload (Failure "timeout")) w in
  fst done = Resolved (mkResponse 500
    [("error", JStr "Failed to generate headshot"); ("details", JStr "timeout")]) /\
  w_errlog (snd done) = ["Error generating headshot:"; "Refund error:"].
Proof. vm_compute. repeat split. Qed.

(** C6, as stated, fails: the balance and the entry are written apart.
    The route of server_with_credits.js that the statement is drawn from
    does not call update_user_credits: a request of an account with balance
    1 is answered 200 and leaves the balance at 0 with credit_transactions
    as it was.  And update_user_credits itself, for an id that has no row of
    user_profiles, answers TRUE and writes the entry while no balance
    changes. *)
Lemma balance_and_entry_written_apart :
  let spent := run (generate WithCredits upload (Output picture)) (quiet (alice_with 1)) in
  let orphan := commit (update_user_credits "9f3a2b10-bob" 5 "purchase" "Purchased 5 credits")
                  (alice_with 1) in
  (succeeded (fst spent) = true /\
   balance (w_db (snd spent)) alice = Some 0 /\
   credit_transactions (w_db (snd spent)) = credit_transactions (alice_with 1)) /\
  (fst orphan = Some true /\
   user_profiles (snd orphan) = user_profiles (alice_with 1) /\
   credit_transactions (snd orphan) =
     (credit_transactions (alice_with 1) ++
        [mkTransaction "9f3a2b10-bob" 5 "purchase" "Purchased 5 credits"])%list).
Proof. vm_compute. repeat split. Qed.

(** C6, amended. One call of update_user_credits for an account that has
    a profile either stores the new balance together with the new row of
    credit_transactions, and nothing else, or leaves the tables exactly as
    they were; and it does the first whenever the change is positive or
    covered by the balance and the new balance is an INTEGER.  For an id
    without profile it answers TRUE and writes the row alone. *)
Theorem update_user_credits_atomic (u : string) (change : Z) (ty desc : string)
    (d : db) :
  let done := commit (update_user_credits u change ty desc) d in
  match user_profiles d !! u with
  | Some p =>
      ((fst done = Some true /\
        user_profiles (snd done) =
          <[u := mkProfile (email p) (credits p + change)
                   (total_credits_purchased p)]> (user_profiles d) /\
        credit_transactions (snd done) =
          (credit_transactions d ++ [mkTransaction u change ty desc])%list /\
        generations (snd done) = generations d)
       \/
       (fst done <> Some true /\ snd done = d)) /\
      ((0 <= change \/ 0 <= credits p + change) ->
       in_int4 (credits p + change) = true ->
       fst done = Some true)
  | None =>
      fst done = Some true /\
      user_profiles (snd done) = user_profiles d /\
      credit_transactions (snd done) =
        (credit_transactions d ++ [mkTransaction u change ty desc])%list /\
      generations (snd done) = generations d
  end.
Proof.
  intros done. subst done. unfold commit.
  rewrite update_user_credits_eq.
  destruct (user_profiles d !! u) as [p|] eqn:Haccount.
  - destruct (in_int4 (credits p + change)) eqn:Hr.
    + destruct ((change <? 0) && (credits p + change <? 0)) eqn:Hc; simpl.
      * split; [right; split; [discriminate|reflexivity]|].
        intros Hok _. apply andb_true_iff in Hc as [H1 H2].
        apply Z.ltb_lt in H1, H2. lia.
      * split; [left; repeat split|]. reflexivity.
    + simpl. split; [right; split; [discriminate|reflexivity]|].
      intros _ Hno. discriminate.
  - simpl. repeat split.
Qed.

Lemma update_user_credits_atomic_witness :
  let done := commit (update_user_credits alice (-1) "usage" "headshot") (alice_with 1) in
  ((fst done = Some true /\
    user_profiles (snd done) =
      <[alice := mkProfile "alice@example.com" (1 + -1) 0]>
        (user_profiles (alice_with 1)) /\
    credit_transactions (snd done) =
      (credit_transactions (alice_with 1)
         ++ [mkTransaction alice (-1) "usage" "headshot"])%list /\
    generations (snd done) = generations (alice_with 1))
   \/
   (fst done <> Some true /\ snd done = alice_with 1)) /\
  ((0 <= -1 \/ 0 <= 1 + -1) ->
   in_int4 (1 + -1) = true ->
   fst done = Some true).
Proof.
  exact (update_user_credits_atomic alice (-1) "usage" "headshot" (alice_with 1)).
Defined.

(** The same through the client: whatever happens to the request, the call
    leaves the tables with both changes or with none. *)
Lemma rpc_call_atomic u change ty desc w p :
  user_profiles (w_db w) !! u = Some p ->
  let after := w_db (snd (exec_call (RpcUpdateUserCredits u change ty desc) w)) in
  (user_profiles after =
     <[u := set_credits p (credits p + change)]> (user_profiles (w_db w)) /\
   credit_transactions after =
     (credit_transactions (w_db w) ++ [mkTransaction u change ty desc])%list /\
   generations after = generations (w_db w))
  \/ after = w_db w.
Proof.
  intros Hp after. subst after.
  destruct (exec_call_db (RpcUpdateUserCredits u change ty desc) w) as [-> | ->];
    [right; reflexivity|].
  cbn [db_request]. unfold rpc_update_user_credits, commit.
  destruct (in_int4 change); [|right; reflexivity].
  rewrite update_user_credits_eq, Hp.
  destruct (in_int4 (credits p + change)); [|right; reflexivity].
  destruct ((change <? 0) && (credits p + change <? 0));
    [right; reflexivity | left; repeat split].
Qed.

(** Without a row of user_profiles the function still writes the row of
    credit_transactions and returns TRUE. *)
Lemma update_user_credits_without_profile u change ty desc d :
  user_profiles d !! u = None ->
  commit (update_user_credits u change ty desc) d =
  (Some true, add_transaction d (mkTransaction u change ty desc)).
Proof.
  intros Hnone. unfold commit. rewrite update_user_credits_eq, Hnone. reflexivity.
Qed.

(** ** Reconciliation *)

Lemma sum_amounts_app u l t :
  sum_amounts u (l ++ [t]) =
  sum_amounts u l + (if String.eqb (tx_user_id t) u then amount t else 0).
Proof. induction l as [|t' l IH]; simpl; [lia | rewrite IH; lia]. Qed.

Lemma unseen_sum id d : unseen id d -> ledger_sum d id = 0.
Proof.
  unfold unseen, ledger_sum. induction 1 as [|t l Ht _ IH]; simpl; [reflexivity|].
  apply String.eqb_neq in Ht. rewrite Ht, IH. reflexivity.
Qed.

(** A balance moved by [change] with a row of [change] for the same
    account keeps the tables reconciled. *)
Lemma reconciled_credit d u p change ty desc :
  reconciled d -> user_profiles d !! u = Some p ->
  reconciled
    (add_transaction
       (set_profiles d (<[u := set_credits p (credits p + change)]> (user_profiles d)))
       (mkTransaction u change ty desc)).
Proof.
  intros Hd Hp u' p'. unfold ledger_sum. simpl.
  rewrite sum_amounts_app, lookup_insert. simpl.
  case_decide as Hu.
  - subst u'. intros [= <-]. simpl. rewrite String.eqb_refl.
    rewrite (Hd u p Hp). reflexivity.
  - intros Hp'. apply String.eqb_neq in Hu. rewrite Hu, (Hd u' p' Hp').
    unfold ledger_sum. lia.
Qed.

Lemma rpc_reconciled u change ty desc d :
  reconciled d -> reconciled (snd (rpc_update_user_credits u change ty desc d)).
Proof.
  intros Hd. unfold rpc_update_user_credits, commit.
  destruct (in_int4 change); [|exact Hd].
  rewrite update_user_credits_eq.
  destruct (user_profiles d !! u) as [p|] eqn:Hp; simpl.
  - destruct (in_int4 (credits p + change)); simpl; [|exact Hd].
    destruct ((change <? 0) && (credits p + change <? 0)); simpl; [exact Hd|].
    apply reconciled_credit; assumption.
  - intros u' p' Hp'. unfold ledger_sum. simpl in *.
    rewrite sum_amounts_app. simpl.
    assert (Hu : u <> u') by (intros ->; congruence).
    apply String.eqb_neq in Hu. rewrite Hu, (Hd u' p' Hp').
    unfold ledger_sum. lia.
Qed.

Lemma exec_call_reconciled c w :
  reconciled (w_db w) -> writes_through_ledger c ->
  reconciled (w_db (snd (exec_call c w))).
Proof.
  intros Hd Hc. destruct (exec_call_db c w) as [-> | ->]; [exact Hd|].
  destruct c; cbn in Hc; try contradiction; simpl; try exact Hd.
  - apply rpc_reconciled, Hd.
  - unfold update_total_purchased. destruct (in_int4 v); [|exact Hd].
    destruct (user_profiles (w_db w) !! u) as [p|] eqn:Hp; simpl; [|exact Hd].
    intros u' p'. unfold ledger_sum. simpl. rewrite lookup_insert.
    case_decide as Hu; [|apply Hd].
    subst u'. intros [= <-]. simpl. exact (Hd u p Hp).
Qed.

Lemma handle_new_user_reconciled id e d :
  unseen id d -> reconciled d ->
  reconciled (snd (commit (handle_new_user id e) d)).
Proof.
  intros Hnew Hd. unfold commit. rewrite handle_new_user_eq.
  destruct (user_profiles d !! id) eqn:Hid; simpl; [exact Hd|].
  intros u' p'. unfold ledger_sum. simpl.
  rewrite sum_amounts_app, lookup_insert. simpl.
  case_decide as Hu.
  - subst u'. intros [= <-]. simpl. rewrite String.eqb_refl.
    pose proof (unseen_sum id d Hnew) as Hz. unfold ledger_sum in Hz.
    rewrite Hz. reflexivity.
  - intros Hp'. apply String.eqb_neq in Hu. rewrite Hu, (Hd u' p' Hp').
    unfold ledger_sum. lia.
Qed.

Lemma through_ledger_respects op :
  through_ledger op ->
  match op with
  | NewUser _ _ => True
  | ApplyDelta u change ty desc =>
      respects writes_through_ledger told_nothing
        (await (RpcUpdateUserCredits u change ty desc))
  | Generate v req provider =>
      respects writes_through_ledger told_nothing (generate v req provider)
  | Purchase req amount plan =>
      respects writes_through_ledger told_nothing
        (ServerSupabase.post_credits_purchase req amount plan)
  | PurchasePackage _ _ => False
  | Checkout _ => False
  end.
Proof.
  destruct op as [ | |v req provider| | | ]; cbn; intros H; try exact H.
  - unfold await. respects_auto.
  - destruct v; try contradiction; unfold_handlers; respects_auto.
  - unfold ServerSupabase.post_credits_purchase, ServerSupabase.credits_purchase.
    unfold_handlers. respects_auto.
Qed.

Lemma ledger_step_reconciled w w' :
  ledger_step w w' -> reconciled (w_db w) -> reconciled (w_db w').
Proof.
  assert (Hrun : forall (A : Type) (p : prog A) w0,
            respects writes_through_ledger told_nothing p ->
            reconciled (w_db w0) -> reconciled (w_db (snd (run p w0)))).
  { intros A p w0 Hp Hd.
    apply (run_respects (fun w1 => reconciled (w_db w1))
             writes_through_ledger told_nothing); try assumption.
    - intros c w1 H1 Hc. apply exec_call_reconciled; assumption.
    - intros c w1 _. exact I. }
  intros [id e w0 Hnew | op w0 Hop Hthrough] Hd.
  - simpl. apply handle_new_user_reconciled; assumption.
  - pose proof (through_ledger_respects op Hthrough) as Hr.
    destruct op; cbn [apply]; try contradiction.
    + exfalso. eapply Hop. reflexivity.
    + apply Hrun; assumption.
    + apply Hrun; assumption.
    + apply Hrun; assumption.
Qed.

(** C4, as stated, fails: the generation route of server_with_credits.js
    overwrites the balance and writes no row of credit_transactions, and so
    does the Stripe webhook when it adds the purchased credits. *)
Lemma balance_change_without_ledger_row :
  reconciled (alice_with 3) /\
  ~ reconciled (w_db (apply (Generate WithCredits upload (Output picture))
                        (quiet (alice_with 3)))) /\
  ~ reconciled (w_db (apply
       (Checkout (StripeWebhook.mkSession true (Some "alice@example.com") 25 1))
       (quiet (alice_with 3)))).
Proof.
  split; [|split].
  - intros u p. cbn [alice_with user_profiles].
    intros [<- <-]%lookup_singleton_Some. reflexivity.
  - intros H. specialize (H alice (mkProfile "alice@example.com" 2 0)).
    assert (Hrow : user_profiles
              (w_db (apply (Generate WithCredits upload (Output picture))
                       (quiet (alice_with 3)))) !! alice
            = Some (mkProfile "alice@example.com" 2 0))
      by (vm_compute; reflexivity).
    specialize (H Hrow). clear Hrow. vm_compute in H. discriminate H.
  - intros H. specialize (H alice (mkProfile "alice@example.com" 28 0)).
    assert (Hrow : user_profiles
              (w_db (apply
                 (Checkout (StripeWebhook.mkSession true (Some "alice@example.com") 25 1))
                 (quiet (alice_with 3)))) !! alice
            = Some (mkProfile "alice@example.com" 28 0))
      by (vm_compute; reflexivity).
    specialize (H Hrow). clear Hrow. vm_compute in H. discriminate H.
Qed.

(** C4, amended. Starting from reconciled tables, through any sequence of
    operations whose balance changes go through handle_new_user and
    update_user_credits (the signup trigger for a new id; the purchase route
    /api/credits/purchase; the generation routes of server_with_auth.js, of
    the servers of api/auth/session-status.js and api/auth/history.js and of
    api/auth/generate-headshot.js; bare calls of update_user_credits),
    whatever fails on the way, the balance of every account equals the sum
    of the amounts of its rows of credit_transactions after every
    operation. *)
Theorem ledger_reconciled (w w' : world)
    (Hstart : reconciled (w_db w))
    (Hsteps : rtc ledger_step w w') :
  reconciled (w_db w').
Proof.
  induction Hsteps as [w|w w1 w2 Hstep _ IH]; [exact Hstart|].
  apply IH. eapply ledger_step_reconciled; eassumption.
Qed.

Lemma ledger_reconciled_witness :
  reconciled (w_db
    (apply (NewUser "b" "bob@example.com")
       (apply (Generate WithAuth upload (Failure "timeout"))
          (quiet (alice_with 3))))).
Proof.
  apply (ledger_reconciled (quiet (alice_with 3))).
  - intros u p. cbn [quiet w_db alice_with user_profiles].
    intros [<- <-]%lookup_singleton_Some. reflexivity.
  - eapply rtc_l.
    + apply (step_through (Generate WithAuth upload (Failure "timeout"))).
      * intros id e. discriminate.
      * exact I.
    + eapply rtc_l; [|apply rtc_refl].
      apply step_new_user. unfold unseen. vm_compute.
      repeat constructor; discriminate.
Defined.

(** ** The order of the debit and the provider call *)

Lemma exec_call_trace c w :
  w_trace (snd (exec_call c w)) =
  (w_trace w ++ match c with ConsoleError _ => [] | _ => [c] end)%list.
Proof.
  destruct c; unfold exec_call, next_fault; simpl;
    try (destruct (w_faults w) as [|[| |] fs]; reflexivity);
    try reflexivity.
  symmetry. apply app_nil_r.
Qed.

Lemma run_trace_extends {A} (p : prog A) w :
  exists calls, w_trace (snd (run p w)) = (w_trace w ++ calls)%list.
Proof.
  revert w. induction p as [a|msg|c k IH]; intros w; simpl.
  - exists []. symmetry. apply app_nil_r.
  - exists []. symmetry. apply app_nil_r.
  - destruct (exec_call c w) as [o w'] eqn:E.
    destruct (IH o w') as [calls Hcalls].
    pose proof (exec_call_trace c w) as Ht. rewrite E in Ht. simpl in Ht.
    eexists. rewrite Hcalls, Ht, <- app_assoc. reflexivity.
Qed.

Section Order.
Variable first second : call -> bool.
Hypothesis first_not_console : forall label, first (ConsoleError label) = false.

Lemma run_ordered {A} (p : prog A) :
  ordered first second p ->
  forall w, exists calls,
    w_trace (snd (run p w)) = (w_trace w ++ calls)%list /\
    precedes first second calls = true.
Proof.
  induction 1 as [a|msg|c k Hc|c k Hc1 Hc2 Hk IH]; intros w.
  - exists []. simpl. split; [symmetry; apply app_nil_r|reflexivity].
  - exists []. simpl. split; [symmetry; apply app_nil_r|reflexivity].
  - rewrite run_call.
    destruct (run_trace_extends (k (fst (exec_call c w))) (snd (exec_call c w)))
      as [calls Hcalls].
    rewrite exec_call_trace in Hcalls.
    assert (Hnc : match c with ConsoleError _ => [] | _ => [c] end = [c]).
    { destruct c; try reflexivity. rewrite first_not_console in Hc. discriminate. }
    rewrite Hnc, <- app_assoc in Hcalls.
    eexists. split; [exact Hcalls|]. simpl. rewrite Hc. reflexivity.
  - rewrite run_call.
    destruct (IH (fst (exec_call c w)) (snd (exec_call c w))) as [calls [Hcalls Hp]].
    rewrite exec_call_trace, <- app_assoc in Hcalls.
    eexists. split; [exact Hcalls|].
    destruct c; simpl; rewrite ?Hc1, ?Hc2; simpl in *; rewrite ?Hc1, ?Hc2; exact Hp.
Qed.
End Order.

Ltac ordered_step :=
  lazymatch goal with
  | |- ordered _ _ (Return _) => apply ordered_return
  | |- ordered _ _ (Throw _) => apply ordered_throw
  | |- ordered _ _ (Call _ _) =>
      first [ apply ordered_first; cbn; rewrite ?String.eqb_refl; reflexivity
            | apply ordered_other;
              [ cbn; rewrite ?andb_false_r; reflexivity
              | cbn; rewrite ?andb_false_r; reflexivity
              | let r := fresh "r" in let msg := fresh "msg" in intros [r|msg] ] ]
  | |- ordered _ _ ?p =>
      match p with
      | context [match ?x with _ => _ end] => destruct x eqn:?
      end
  end.

Ltac ordered_auto := cbn; repeat (ordered_step; cbn).

Lemma generate_ordered v req provider id :
  req_token req = Token id ->
  if debits_first v
  then ordered (is_debit_of id) is_provider_call (generate v req provider)
  else ordered is_provider_call (is_debit_of id) (generate v req provider).
Proof.
  intros Htoken.
  destruct v; cbn [debits_first]; unfold_handlers; rewrite Htoken; ordered_auto.
Qed.

Lemma rejected_reads_only v req provider id p :
  req_token req = Token id -> credits p < 1 ->
  respects reads_only (reads_profile id p) (generate v req provider).
Proof.
  intros Htoken Hlow.
  destruct v; unfold_handlers; rewrite Htoken; respects_auto.
Qed.

(** C1, as stated, fails: a request to server_with_credits.js by an account
    with balance 1 reads the profile, runs the model, and only then writes
    the debit: the provider call comes before the debit. *)
Lemma debit_after_provider_call :
  let done := run (generate WithCredits upload (Output picture)) (quiet (alice_with 1)) in
  w_trace (snd done) =
    [SelectProfile alice;
     ReplicateRun (Output picture);
     UpdateCredits alice 0 true;
     InsertGeneration
       (mkGeneration alice (Some picture) (ServerWithCredits.model_parameters upload)
          1 "completed")] /\
  debit_precedes_provider alice (w_trace (snd done)) = false.
Proof. vm_compute. split; reflexivity. Qed.

Lemma exec_call_reads_only id p w0 c w :
  reads_only c ->
  user_profiles (w_db w) !! id = Some p /\
    provider_calls (w_trace w) = provider_calls (w_trace w0) ->
  user_profiles (w_db (snd (exec_call c w))) !! id = Some p /\
    provider_calls (w_trace (snd (exec_call c w))) = provider_calls (w_trace w0).
Proof.
  intros Hc [Hp Ht]. split.
  - destruct (exec_call_db c w) as [-> | ->]; [exact Hp|].
    destruct c; cbn in Hc; try contradiction; exact Hp.
  - rewrite exec_call_trace. unfold provider_calls in *.
    rewrite List.filter_app, Ht.
    destruct c; cbn in Hc; try contradiction; simpl; apply app_nil_r.
Qed.

Lemma exec_call_reads_profile id p c w :
  user_profiles (w_db w) !! id = Some p ->
  reads_profile id p c (fst (exec_call c w)).
Proof.
  intros Hp. destruct c; cbn [reads_profile]; try exact I.
  destruct (exec_call_reply (SelectProfile u) w eq_refl) as [E|[E|E]];
    rewrite E; simpl; try exact I; try discriminate.
  intros q Hq ->. unfold select_profile in Hq. rewrite Hp in Hq.
  simpl in Hq. congruence.
Qed.

(** C1, amended. In every run of a generation route, whatever fails on the
    way: server_with_auth.js and server 2.js send the usage debit before the
    provider call (no provider call comes before the first debit of the
    account); the routes of server_with_credits.js, of the servers of
    api/auth/session-status.js and api/auth/history.js, of server (1try).js
    and of api/auth/generate-headshot.js call the provider first and debit
    after it has returned (no debit comes before the first provider call);
    and in all seven a request of an account whose balance is below 1 never
    reaches the provider. *)
Theorem debit_and_provider_order (v : variant) (req : request)
    (provider : provider_result) (w : world) (id : string)
    (Htoken : req_token req = Token id) :
  exists calls,
    w_trace (snd (run (generate v req provider) w)) = (w_trace w ++ calls)%list /\
    (if debits_first v
     then debit_precedes_provider id calls
     else provider_precedes_debit id calls) = true /\
    (forall p, user_profiles (w_db w) !! id = Some p -> credits p < 1 ->
       provider_calls calls = []).
Proof.
  pose proof (generate_ordered v req provider id Htoken) as Hord.
  assert (Hcalls : exists calls,
    w_trace (snd (run (generate v req provider) w)) = (w_trace w ++ calls)%list /\
    (if debits_first v
     then debit_precedes_provider id calls
     else provider_precedes_debit id calls) = true).
  { destruct (debits_first v).
    - apply (run_ordered (is_debit_of id) is_provider_call); [reflexivity|exact Hord].
    - apply (run_ordered is_provider_call (is_debit_of id)); [reflexivity|exact Hord]. }
  destruct Hcalls as [calls [Hcalls Horder]].
  exists calls. split; [exact Hcalls|]. split; [exact Horder|].
  intros p Hp Hlow.
  assert (Hkept :
    user_profiles (w_db (snd (run (generate v req provider) w))) !! id = Some p /\
    provider_calls (w_trace (snd (run (generate v req provider) w)))
      = provider_calls (w_trace w)).
  { apply (run_respects
             (fun w' => user_profiles (w_db w') !! id = Some p /\
                        provider_calls (w_trace w') = provider_calls (w_trace w))
             reads_only (reads_profile id p)).
    - intros c w' HI Hc. apply exec_call_reads_only; assumption.
    - intros c w' [HI _]. apply exec_call_reads_profile, HI.
    - apply rejected_reads_only; assumption.
    - split; [exact Hp|reflexivity]. }
  destruct Hkept as [_ Hsame].
  rewrite Hcalls in Hsame. unfold provider_calls in *.
  rewrite List.filter_app in Hsame.
  rewrite <- (app_nil_r (List.filter is_provider_call (w_trace w))) in Hsame at 2.
  apply app_inv_head in Hsame. exact Hsame.
Qed.

Lemma debit_and_provider_order_witness :
  exists calls,
    w_trace (snd (run (generate WithAuth upload (Output picture)) (quiet (alice_with 1))))
      = (w_trace (quiet (alice_with 1)) ++ calls)%list /\
    (if debits_first WithAuth
     then debit_precedes_provider alice calls
     else provider_precedes_debit alice calls) = true /\
    (forall p, user_profiles (w_db (quiet (alice_with 1))) !! alice = Some p ->
       credits p < 1 -> provider_calls calls = []).
Proof.
  apply (debit_and_provider_order WithAuth upload (Output picture)
           (quiet (alice_with 1)) alice).
  reflexivity.
Defined.

(** When two requests to server_with_auth.js overlap on a balance of 1,
    the one whose update_user_credits returns FALSE (the other took the
    credit) goes on to the provider all the same: the route looks at the
    error of the reply only, not at its data. *)
Lemma failed_reservation_still_runs_provider :
  let requests := [handle (WithAuth, upload, Output picture);
                   handle (WithAuth, upload, Output picture)] in
  let done := sched [0; 1; 0; 1; 0; 1; 0; 1; 0; 1]%nat requests (quiet (alice_with 1)) in
  successes (outcomes (fst done)) = 2 /\
  length (provider_calls (w_trace (snd done))) = 2%nat /\
  balance (w_db (snd done)) alice = Some 0 /\
  ledger_sum (w_db (snd done)) alice = 0.
Proof. vm_compute. repeat split. Qed.

(** ** Requests served one after the other, and overlapping requests *)

Ltac settle_quiet :=
  cbn [run]; world_simpl;
  split; [assumption|];
  eexists; split; [first [eassumption | apply lookup_insert_eq]|];
  cbn [succeeded status credits set_credits Z.eqb Pos.eqb];
  unfold int4_max in *; lia.

Ltac drive_quiet p :=
  repeat first
    [ quiet_step
    | match goal with
      | |- context [req_file ?r] => destruct (req_file r); world_simpl
      | |- context [credits p <? 1] =>
          let H := fresh "Hlow" in
          destruct (credits p <? 1) eqn:H;
          [apply Z.ltb_lt in H | apply Z.ltb_ge in H]; world_simpl
      | |- context [seed_throws ?r] =>
          destruct (seed_throws r); world_simpl
      | |- context [ReplicateRun ?r] =>
          is_var r; destruct r; world_simpl
      | |- context [match ?o with JNull => _ | _ => _ end] =>
          is_var o; destruct o; world_simpl
      | |- context [match ?l with nil => _ | _ => _ end] =>
          is_var l; destruct l; world_simpl
      end ].

Ltac use_seed :=
  try match goal with
      | H : seed_throws _ = false |- _ => rewrite H; world_simpl
      end.

(** One request in a quiet world: the balance does not go up, it stays
    non-negative, and it went down by one if the request is answered 200.
    In server_with_auth.js this wants a seed on which the trim does not
    throw: the catch block refunds whatever was thrown. *)
Lemma generate_quiet v req provider w id p :
  (v = WithAuth -> seed_throws req = false) ->
  req_token req = Token id -> w_faults w = [] ->
  user_profiles (w_db w) !! id = Some p -> 0 <= credits p <= int4_max ->
  let done := run (generate v req provider) w in
  w_faults (snd done) = [] /\
  exists p', user_profiles (w_db (snd done)) !! id = Some p' /\
    0 <= credits p' <= credits p - (if succeeded (fst done) then 1 else 0).
Proof.
  intros Hseed Htoken Hquiet Hp Hc done. subst done.
  destruct v; first [specialize (Hseed eq_refl) | clear Hseed];
    unfold_handlers; rewrite Htoken; world_simpl; use_seed;
    drive_quiet p; settle_quiet.
Qed.

Lemma successes_cons o os :
  successes (o :: os) = (if succeeded o then 1 else 0) + successes os.
Proof.
  unfold successes. simpl. destruct (succeeded o); simpl; lia.
Qed.

(** C2, as stated, fails: two requests to server_with_credits.js by an
    account with balance 1, each resumed in turn at its awaits, both read
    the balance 1, both run the model, both write the balance 0 and both are
    answered 200; served one after the other, the same two requests give one
    success. *)
Lemma overlapping_debits_both_succeed :
  let requests := [handle (WithCredits, upload, Output picture);
                   handle (WithCredits, upload, Output picture)] in
  let overlapped := sched [0; 1; 0; 1; 0; 1; 0; 1]%nat requests (quiet (alice_with 1)) in
  let in_turn := sched [0; 0; 0; 0; 1; 1; 1; 1]%nat requests (quiet (alice_with 1)) in
  balance (alice_with 1) alice = Some 1 /\
  successes (outcomes (fst overlapped)) = 2 /\
  List.filter (is_debit_of alice) (w_trace (snd overlapped)) =
    [UpdateCredits alice 0 true; UpdateCredits alice 0 true] /\
  balance (w_db (snd overlapped)) alice = Some 0 /\
  successes (outcomes (fst in_turn)) = 1.
Proof. vm_compute. repeat split. Qed.

(** C2, amended. For generation requests of one account with balance B
    that are served one after the other, to any of the seven routes and with
    every database request going through, the balance never goes below 0
    and the requests that succeed (each at the cost of one credit) never
    number more than the credits taken, B minus the balance that is left:
    never more than B.  The requests to server_with_auth.js are those on
    whose seed the trim does not throw: on such a throw its catch block
    refunds a credit that was not taken.  Nothing serializes requests that
    overlap. *)
Theorem sequential_debits_covered (requests : list generation_request)
    (w : world) (id : string) (p : user_profile)
    (Hrequests :
       Forall (fun g => req_token (snd (fst g)) = Token id /\
                        (fst (fst g) = WithAuth ->
                         seed_throws (snd (fst g)) = false)) requests)
    (Hquiet : w_faults w = [])
    (Haccount : user_profiles (w_db w) !! id = Some p)
    (Hbalance : 0 <= credits p <= int4_max) :
  let done := serve (map handle requests) w in
  exists left,
    balance (w_db (snd done)) id = Some left /\
    0 <= left /\
    successes (fst done) <= credits p - left.
Proof.
  revert w p Hquiet Haccount Hbalance.
  induction Hrequests as [|[[v req] provider] requests [Htoken Hseed] _ IH];
    intros w p Hquiet Haccount Hbalance; cbv zeta; cbn [map serve].
  - cbn [fst snd]. unfold successes, balance. rewrite Haccount.
    cbn [List.filter length Z.of_nat fmap option_fmap option_map].
    exists (credits p). split; [reflexivity|]. lia.
  - change (handle (v, req, provider)) with (generate v req provider).
    cbv zeta in IH. cbn [fst snd] in *.
    pose proof (generate_quiet v req provider w id p Hseed Htoken Hquiet Haccount
                  Hbalance) as Hstep.
    destruct (run (generate v req provider) w) as [o w1] eqn:Hrun.
    cbn [fst snd] in Hstep. destruct Hstep as (Hquiet1 & p1 & Hp1 & Hcase).
    assert (Hbalance1 : 0 <= credits p1 <= int4_max)
      by (destruct (succeeded o); lia).
    specialize (IH w1 p1 Hquiet1 Hp1 Hbalance1).
    destruct (serve (map handle requests) w1) as [os w2] eqn:Hserve.
    cbn [fst snd] in *. rewrite successes_cons.
    destruct IH as (left & Hleft & Hpos & Hle).
    exists left. split; [exact Hleft|]. destruct (succeeded o); lia.
Qed.

Lemma sequential_debits_covered_witness :
  let done := serve (map handle [(WithCredits, upload, Output picture);
                                 (WithAuth, upload, Output picture)])
                (quiet (alice_with 1)) in
  exists left,
    balance (w_db (snd done)) alice = Some left /\
    0 <= left /\
    successes (fst done) <= 1 - left.
Proof.
  apply (sequential_debits_covered
           [(WithCredits, upload, Output picture); (WithAuth, upload, Output picture)]
           (quiet (alice_with 1)) alice (mkProfile "alice@example.com" 1 0)).
  - repeat (constructor; [split; [reflexivity | intros _; reflexivity]|]).
    constructor.
  - reflexivity.
  - reflexivity.
  - simpl. unfold int4_max. lia.
Defined.

(** A request that is alone in flight, resumed until it ends, does what
    [run] does. *)
Lemma sched_alone {A} (p : prog A) w :
  exists n,
    sched (replicate n 0%nat) [p] w =
    ([match fst (run p w) with
      | Resolved a => Return a
      | Rejected msg => Throw msg
      end], snd (run p w)).
Proof.
  revert w. induction p as [a|msg|c k IH]; intros w.
  - exists 0%nat. reflexivity.
  - exists 0%nat. reflexivity.
  - destruct (IH (fst (exec_call c w)) (snd (exec_call c w))) as [n Hn].
    exists (S n). rewrite run_call. cbn [replicate sched lookup list_lookup step].
    destruct (exec_call c w) as [o w']. exact Hn.
Qed.

(** * Further properties of the code *)

Section AnswersRun.
Variable Inv : world -> Prop.
Variable allowed : call -> Prop.
Variable told : forall c, outcome (reply_of c) -> Prop.

Hypothesis allowed_keeps :
  forall c w, Inv w -> allowed c -> Inv (snd (exec_call c w)).
Hypothesis told_holds :
  forall c w, Inv w -> told c (fst (exec_call c w)).

Lemma run_answers {A} (post : outcome A -> Prop) (p : prog A) :
  answers allowed told post p ->
  forall w, Inv w -> Inv (snd (run p w)) /\ post (fst (run p w)).
Proof.
  induction 1 as [a Ha|msg Hm|c k Hc Hk IH]; intros w HI; simpl;
    try (split; assumption).
  destruct (exec_call c w) as [o w'] eqn:E.
  apply IH.
  - specialize (told_holds c w HI). rewrite E in told_holds. exact told_holds.
  - specialize (allowed_keeps c w HI Hc). rewrite E in allowed_keeps.
    exact allowed_keeps.
Qed.
End AnswersRun.

Lemma exec_call_leaves_tables c w :
  leaves_tables c -> w_db (snd (exec_call c w)) = w_db w.
Proof.
  intros Hc. destruct (exec_call_db c w) as [-> | ->]; [reflexivity|].
  destruct c; cbn in Hc; try contradiction; reflexivity.
Qed.

Lemma exec_call_reads_stored c w :
  reads_stored (w_db w) c (fst (exec_call c w)).
Proof.
  destruct c; cbn [reads_stored]; try exact I.
  - destruct (exec_call_reply (SelectProfile u) w eq_refl) as [E|[E|E]];
      rewrite E; simpl; try exact I; try discriminate.
    unfold select_profile. intros q.
    destruct (user_profiles (w_db w) !! u); simpl; congruence.
  - destruct (exec_call_reply (SelectProfileByEmail e) w eq_refl) as [E|[E|E]];
      rewrite E; simpl; try exact I.
    destruct (sb_data (select_profile_by_email e (w_db w))); [reflexivity|exact I].
  - destruct r; reflexivity.
  - reflexivity.
Qed.

(** A Supabase request with the fault the environment has for it. *)
Lemma exec_call_head c w f fs :
  is_db_call c = true -> w_faults w = f :: fs ->
  exec_call c w =
  match f with
  | NoFault =>
      (Resolved (fst (db_request c (w_db w))),
       after_request w c (snd (db_request c (w_db w))) fs)
  | ReturnsError => (Resolved (request_failed c), after_request w c (w_db w) fs)
  | Rejects => (Rejected "fetch failed", after_request w c (w_db w) fs)
  end.
Proof.
  intros Hc Hf. destruct c; try discriminate; unfold exec_call, next_fault;
    simpl; rewrite Hf; destruct f; reflexivity.
Qed.

Lemma exec_call_quiet c w :
  is_db_call c = true -> w_faults w = [] ->
  exec_call c w =
  (Resolved (fst (db_request c (w_db w))),
   after_request w c (snd (db_request c (w_db w))) []).
Proof.
  intros Hc Hf. destruct c; try discriminate; unfold exec_call, next_fault;
    simpl; rewrite Hf; destruct w; simpl in *; subst; reflexivity.
Qed.

Ltac answers_step post_tac :=
  lazymatch goal with
  | |- answers _ _ _ (Return _) => apply answers_return; post_tac
  | |- answers _ _ _ (Throw _) => apply answers_throw; post_tac
  | |- answers _ _ _ (Call _ _) =>
      apply answers_call;
      [ cbn in *; use_told; cbn in *; try exact I; try lia; try (subst; lia);
        try congruence
      | let r := fresh "r" in let msg := fresh "msg" in let T := fresh "T" in
        intros [r|msg] T; cbn in T; try discriminate T;
        try (injection T as T; try subst r; try subst msg) ]
  | |- answers _ _ _ ?p =>
      match p with
      | context [match ?x with _ => _ end] => destruct x eqn:?
      end
  end.

Ltac answers_auto post_tac := cbn; repeat (answers_step post_tac; cbn).

(** ** The SQL functions at their edges *)

(** X1. What update_user_credits answers on an existing account: TRUE
    exactly when the new balance is an INTEGER and the change is not a debit
    beyond the balance; FALSE exactly for a debit beyond the balance; an
    error exactly when the new balance is no INTEGER.  Whenever it does not
    answer TRUE the tables are as they were. *)
Theorem update_user_credits_outcome (u : string) (change : Z)
    (ty desc : string) (d : db) (p : user_profile)
    (Haccount : user_profiles d !! u = Some p) :
  let done := commit (update_user_credits u change ty desc) d in
  (fst done = Some true <->
     in_int4 (credits p + change) = true /\ (0 <= change \/ 0 <= credits p + change)) /\
  (fst done = Some false <->
     in_int4 (credits p + change) = true /\ change < 0 /\ credits p + change < 0) /\
  (fst done = None <-> in_int4 (credits p + change) = false) /\
  (fst done <> Some true -> snd done = d).
Proof.
  intros done. subst done. unfold commit.
  rewrite update_user_credits_eq, Haccount.
  destruct (in_int4 (credits p + change)) eqn:Hr.
  - destruct (change <? 0) eqn:Hneg; destruct (credits p + change <? 0) eqn:Hlow;
      cbn [andb fst snd];
      try apply Z.ltb_lt in Hneg; try apply Z.ltb_ge in Hneg;
      try apply Z.ltb_lt in Hlow; try apply Z.ltb_ge in Hlow;
      (split; [|split; [|split]]);
      try (split; intros H;
           first [ discriminate H | reflexivity
                 | exfalso; destruct H as (_ & H); destruct H; lia
                 | repeat split; lia ]);
      try (intros H; first [reflexivity | exfalso; apply H; reflexivity]).
  - cbn [fst snd]. (split; [|split; [|split]]);
      try (split; intros H;
           first [ discriminate H | reflexivity | destruct H; discriminate ]);
      reflexivity.
Qed.

Lemma update_user_credits_outcome_witness :
  let done := commit (update_user_credits alice (-5) "usage" "batch") (alice_with 3) in
  (fst done = Some true <->
     in_int4 (3 + -5) = true /\ (0 <= -5 \/ 0 <= 3 + -5)) /\
  (fst done = Some false <->
     in_int4 (3 + -5) = true /\ -5 < 0 /\ 3 + -5 < 0) /\
  (fst done = None <-> in_int4 (3 + -5) = false) /\
  (fst done <> Some true -> snd done = alice_with 3).
Proof.
  apply (update_user_credits_outcome alice (-5) "usage" "batch"
           (alice_with 3) (mkProfile "alice@example.com" 3 0)).
  reflexivity.
Defined.

(** X2. A debit and the refund of the same amount, one after the other:
    when the debit is taken the refund is taken too, the balance is what it
    was, and the two rows written cancel in the sum of the account. *)
Theorem debit_then_refund_restores (u : string) (cost : Z)
    (ty1 desc1 ty2 desc2 : string) (d : db) (p : user_profile)
    (Haccount : user_profiles d !! u = Some p)
    (Hvalid : in_int4 (credits p) = true)
    (Hcost : 0 < cost)
    (Hcovered : cost <= credits p) :
  let debited := commit (update_user_credits u (- cost) ty1 desc1) d in
  let refunded := commit (update_user_credits u cost ty2 desc2) (snd debited) in
  fst debited = Some true /\
  fst refunded = Some true /\
  balance (snd refunded) u = Some (credits p) /\
  ledger_sum (snd refunded) u = ledger_sum d u /\
  credit_transactions (snd refunded) =
    (credit_transactions d ++
       [mkTransaction u (- cost) ty1 desc1; mkTransaction u cost ty2 desc2])%list.
Proof.
  intros debited refunded. subst debited refunded.
  apply in_int4_spec in Hvalid. unfold int4_min, int4_max in Hvalid.
  assert (Hdebit : commit (update_user_credits u (- cost) ty1 desc1) d =
            (Some true,
             add_transaction
               (set_profiles d
                  (<[u := set_credits p (credits p + - cost)]> (user_profiles d)))
               (mkTransaction u (- cost) ty1 desc1))).
  { unfold commit. rewrite update_user_credits_eq, Haccount.
    assert (H1 : in_int4 (credits p + - cost) = true)
      by (apply in_int4_spec; unfold int4_min, int4_max; lia).
    rewrite H1.
    replace (credits p + - cost <? 0) with false by (symmetry; apply Z.ltb_ge; lia).
    rewrite andb_false_r. reflexivity. }
  rewrite Hdebit. cbn [fst snd].
  unfold commit. rewrite update_user_credits_eq.
  cbn [user_profiles add_transaction set_profiles].
  rewrite lookup_insert_eq. cbn [credits set_credits].
  assert (H2 : in_int4 (credits p + - cost + cost) = true)
    by (apply in_int4_spec; unfold int4_min, int4_max; lia).
  rewrite H2.
  replace (cost <? 0) with false by (symmetry; apply Z.ltb_ge; lia).
  cbn [andb fst snd].
  split; [reflexivity|]. split; [reflexivity|].
  unfold balance, ledger_sum.
  cbn [user_profiles credit_transactions add_transaction set_profiles].
  rewrite lookup_insert_eq. cbn [fmap option_fmap option_map credits set_credits].
  rewrite !sum_amounts_app. cbn [tx_user_id amount]. rewrite String.eqb_refl.
  rewrite <- app_assoc.
  split; [f_equal; lia|]. split; [lia|reflexivity].
Qed.

Lemma debit_then_refund_restores_witness :
  let debited := commit (update_user_credits alice (- 2) "usage" "two edits") (alice_with 3) in
  let refunded := commit (update_user_credits alice 2 "refund" "failed") (snd debited) in
  fst debited = Some true /\
  fst refunded = Some true /\
  balance (snd refunded) alice = Some 3 /\
  ledger_sum (snd refunded) alice = ledger_sum (alice_with 3) alice /\
  credit_transactions (snd refunded) =
    (credit_transactions (alice_with 3) ++
       [mkTransaction alice (- 2) "usage" "two edits";
        mkTransaction alice 2 "refund" "failed"])%list.
Proof.
  apply (debit_then_refund_restores alice 2 "usage" "two edits" "refund" "failed"
           (alice_with 3) (mkProfile "alice@example.com" 3 0)).
  - reflexivity.
  - reflexivity.
  - lia.
  - simpl. lia.
Defined.

(** X3. handle_new_user on an id without profile gives it a profile with
    10 credits and one bonus row of 10, and touches no other account; on an
    id that has a profile it fails and changes nothing: the bonus is not
    given twice. *)
Theorem handle_new_user_once (id e : string) (d : db) :
  let done := commit (handle_new_user id e) d in
  match user_profiles d !! id with
  | None =>
      fst done = Some tt /\
      user_profiles (snd done) !! id = Some (mkProfile e 10 0) /\
      (forall u, u <> id -> user_profiles (snd done) !! u = user_profiles d !! u) /\
      credit_transactions (snd done) =
        (credit_transactions d ++
           [mkTransaction id 10 "bonus" "Welcome bonus - 10 free credits"])%list
  | Some _ => fst done = None /\ snd done = d
  end.
Proof.
  intros done. subst done. unfold commit. rewrite handle_new_user_eq.
  destruct (user_profiles d !! id) eqn:Hid; cbn [fst snd].
  - split; reflexivity.
  - split; [reflexivity|]. cbn [user_profiles add_transaction set_profiles].
    split; [apply lookup_insert_eq|]. split; [|reflexivity].
    intros u Hu. apply lookup_insert_ne. congruence.
Qed.

(** ** The middleware and the webhook, whatever fails *)

Lemma leaves_tables_run {A} (d : db) (post : outcome A -> Prop) (p : prog A) w :
  answers leaves_tables (reads_stored d) post p ->
  w_db w = d ->
  w_db (snd (run p w)) = d /\ post (fst (run p w)).
Proof.
  intros Hp Hd.
  apply (run_answers (fun w' => w_db w' = d) leaves_tables (reads_stored d));
    try assumption.
  - intros c w' HI Hc. rewrite exec_call_leaves_tables; assumption.
  - intros c w' HI. rewrite <- HI. apply exec_call_reads_stored.
Qed.

(** X5. The two middlewares that read the profile (authenticateUser and
    the authenticateToken of server_with_credits.js), whatever happens to
    the read: they leave the tables alone, and they hand the route the id of
    the token together with the profile stored under that id, or else they
    answer 401. *)
Theorem middleware_hands_stored_profile (req : request) (w : world) :
  hands_over req (w_db w) (run (authenticateUser req) w) /\
  hands_over req (w_db w) (run (ServerWithCredits.authenticateToken req) w).
Proof.
  unfold hands_over. split.
  - apply (leaves_tables_run (w_db w)
             (fun o => match o with
                       | Resolved (inr (id, user)) =>
                           req_token req = Token id /\
                           user_profiles (w_db w) !! id = Some user
                       | Resolved (inl res) => status res = 401
                       | Rejected _ => False
                       end)); [|reflexivity].
    unfold authenticateUser, console_error, await.
    destruct (req_token req) as [| |userId] eqn:Htoken;
      answers_auto ltac:(cbn; auto).
  - apply (leaves_tables_run (w_db w)
             (fun o => match o with
                       | Resolved (inr (id, user)) =>
                           req_token req = Token id /\
                           user_profiles (w_db w) !! id = Some user
                       | Resolved (inl res) => status res = 401
                       | Rejected _ => False
                       end)); [|reflexivity].
    unfold ServerWithCredits.authenticateToken, console_error, await.
    destruct (req_token req) as [| |userId] eqn:Htoken;
      answers_auto ltac:(cbn; auto).
Qed.

Lemma answers_run {A} (post : outcome A -> Prop) (p : prog A) w :
  answers any_call console_returns post p -> post (fst (run p w)).
Proof.
  intros Hp.
  apply (run_answers (fun _ => True) any_call console_returns); try assumption.
  - intros; exact I.
  - intros c w' _. destruct c; cbn; try exact I. reflexivity.
  - exact I.
Qed.

(** X6. The Stripe webhook answers 200 to every event whose signature
    verifies, whatever happens to the credits (no profile for the email, a
    read or an update that fails), and 400 to the others, which leave the
    tables as they were. *)
Theorem webhook_always_acknowledges (session : StripeWebhook.checkout_session)
    (w : world) :
  let done := run (StripeWebhook.handler session) w in
  (exists res, fst done = Resolved res /\
     status res = if StripeWebhook.signature_ok session then 200 else 400) /\
  (StripeWebhook.signature_ok session = false -> w_db (snd done) = w_db w).
Proof.
  intros done. subst done. split.
  - apply (answers_run (fun o => exists res, o = Resolved res /\
             status res = if StripeWebhook.signature_ok session then 200 else 400)).
    unfold StripeWebhook.handler, json_response, console_error, await.
    destruct (StripeWebhook.signature_ok session);
      answers_auto ltac:(eexists; split; reflexivity).
  - intros Hsig. unfold StripeWebhook.handler. rewrite Hsig. reflexivity.
Qed.

Lemma select_by_email_only e id p d :
  user_profiles d !! id = Some p -> email p = e -> only_email e id d ->
  select_profile_by_email e d = sb_ok (id, p).
Proof.
  intros Hp He Honly. unfold select_profile_by_email.
  assert (Hf : filter (fun kv : string * user_profile => email (snd kv) = e)
                 (user_profiles d) = {[ id := p ]}).
  { apply map_eq. intros k. apply option_eq. intros q.
    rewrite map_lookup_filter_Some, lookup_singleton_Some. simpl. split.
    - intros [Hk Hq]. pose proof (Honly k q Hk Hq) as ->. split; congruence.
    - intros [<- <-]. split; assumption. }
  rewrite Hf, map_to_list_singleton. reflexivity.
Qed.

Lemma only_email_insert e id p' d :
  only_email e id d ->
  only_email e id (set_profiles d (<[id := p']> (user_profiles d))).
Proof.
  intros Honly u q. simpl. rewrite lookup_insert.
  case_decide; [congruence|]. apply Honly.
Qed.

Ltac qstep :=
  rewrite run_call;
  first [ rewrite exec_replicate
        | rewrite exec_console
        | rewrite exec_call_quiet by (first [reflexivity | assumption]) ];
  cbn [fst snd bind try_catch db_request after_request w_db w_faults w_trace
       w_errlog traced logged with_db].

Lemma webhook_quiet session w e id p :
  StripeWebhook.signature_ok session = true ->
  StripeWebhook.customer_email session = Some e -> e <> "" ->
  StripeWebhook.meta_credits session <> 0 ->
  StripeWebhook.meta_quantity session <> 0 ->
  w_faults w = [] ->
  user_profiles (w_db w) !! id = Some p -> email p = e ->
  only_email e id (w_db w) ->
  in_int4 (credits p + StripeWebhook.meta_credits session
                       * StripeWebhook.meta_quantity session) = true ->
  let done := run (StripeWebhook.handler session) w in
  fst done = Resolved (mkResponse 200 []) /\
  w_faults (snd done) = [] /\
  w_db (snd done) =
    set_profiles (w_db w)
      (<[id := set_credits p
                 (credits p + StripeWebhook.meta_credits session
                              * StripeWebhook.meta_quantity session)]>
         (user_profiles (w_db w))).
Proof.
  intros Hsig Hmail He Hc Hq Hquiet Hp Hpe Honly Hr done. subst done.
  unfold StripeWebhook.handler, json_response, console_error, await.
  rewrite Hsig, Hmail. cbn [negb].
  apply String.eqb_neq in He. rewrite He.
  apply Z.eqb_neq in Hc, Hq. rewrite Hc, Hq. cbn [negb andb bind try_catch].
  qstep. rewrite (select_by_email_only e id p (w_db w) Hp Hpe Honly).
  cbn [sb_data sb_ok bind try_catch].
  qstep. unfold update_credits. rewrite Hr, Hp.
  cbn [fst snd bind try_catch run]. repeat split.
Qed.

(** X7. The webhook adds credits x quantity to the balance of the one
    profile with the customer email, writes no row of credit_transactions and
    leaves total_credits_purchased alone; nothing remembers the event, so the
    same event delivered again adds the credits again. *)
Theorem webhook_redelivery_adds_twice (session : StripeWebhook.checkout_session)
    (w : world) (e id : string) (p : user_profile)
    (Hsignature : StripeWebhook.signature_ok session = true)
    (Hemail : StripeWebhook.customer_email session = Some e)
    (Hnonempty : e <> "")
    (Hcredits : StripeWebhook.meta_credits session <> 0)
    (Hquantity : StripeWebhook.meta_quantity session <> 0)
    (Hquiet : w_faults w = [])
    (Haccount : user_profiles (w_db w) !! id = Some p)
    (Hmail : email p = e)
    (Honly : only_email e id (w_db w))
    (Hbalance : 0 <= credits p)
    (Hbought : 0 <= StripeWebhook.meta_credits session
                    * StripeWebhook.meta_quantity session)
    (Hrange : credits p + 2 * (StripeWebhook.meta_credits session
                               * StripeWebhook.meta_quantity session) <= int4_max) :
  let bought := StripeWebhook.meta_credits session
                * StripeWebhook.meta_quantity session in
  let once := run (StripeWebhook.handler session) w in
  let twice := run (StripeWebhook.handler session) (snd once) in
  user_profiles (w_db (snd once)) !! id = Some (set_credits p (credits p + bought)) /\
  user_profiles (w_db (snd twice)) !! id
    = Some (set_credits p (credits p + 2 * bought)) /\
  credit_transactions (w_db (snd twice)) = credit_transactions (w_db w).
Proof.
  intros bought once twice.
  assert (Hr1 : in_int4 (credits p + bought) = true)
    by (apply in_int4_spec; unfold int4_min, int4_max in *; subst bought; lia).
  destruct (webhook_quiet session w e id p Hsignature Hemail Hnonempty Hcredits
              Hquantity Hquiet Haccount Hmail Honly Hr1) as (_ & Hq1 & Hd1).
  fold once in Hq1, Hd1.
  assert (Hp1 : user_profiles (w_db (snd once)) !! id
                = Some (set_credits p (credits p + bought))).
  { rewrite Hd1. cbn [user_profiles set_profiles]. apply lookup_insert_eq. }
  assert (Honly1 : only_email e id (w_db (snd once))).
  { rewrite Hd1. apply only_email_insert. exact Honly. }
  assert (Hr2 : in_int4 (credits (set_credits p (credits p + bought)) + bought) = true).
  { apply in_int4_spec. cbn [credits set_credits].
    unfold int4_min, int4_max in *. subst bought. lia. }
  destruct (webhook_quiet session (snd once) e id _ Hsignature Hemail Hnonempty
              Hcredits Hquantity Hq1 Hp1 Hmail Honly1 Hr2) as (_ & _ & Hd2).
  fold twice in Hd2.
  split; [exact Hp1|]. rewrite Hd2, Hd1.
  cbn [user_profiles set_profiles credit_transactions credits set_credits email
       total_credits_purchased].
  split; [|reflexivity].
  rewrite lookup_insert_eq. f_equal. unfold set_credits. cbn. f_equal. lia.
Qed.

(** X8. When no single profile has the customer email (none, or several),
    the webhook changes nothing in the tables, whatever else fails, and still
    answers 200. *)
Theorem webhook_unknown_email_leaves_tables
    (session : StripeWebhook.checkout_session) (w : world) (e : string)
    (Hemail : StripeWebhook.customer_email session = Some e)
    (Hnone : sb_data (select_profile_by_email e (w_db w)) = None) :
  let done := run (StripeWebhook.handler session) w in
  w_db (snd done) = w_db w /\
  (StripeWebhook.signature_ok session = true ->
   exists res, fst done = Resolved res /\ status res = 200).
Proof.
  intros done. subst done.
  apply (leaves_tables_run (w_db w)
           (fun o => StripeWebhook.signature_ok session = true ->
                     exists res, o = Resolved res /\ status res = 200));
    [|reflexivity].
  unfold StripeWebhook.handler, json_response, console_error, await.
  rewrite Hemail.
  destruct (StripeWebhook.signature_ok session) eqn:Hsig; cbn.
  - destruct (negb (e =? "")%string && negb (StripeWebhook.meta_credits session =? 0)
              && negb (StripeWebhook.meta_quantity session =? 0)); cbn.
    + apply answers_call; [exact I|]. intros [r|msg] T; cbn in T |- *.
      * destruct (sb_data r) as [[id user]|] eqn:Hr.
        -- rewrite Hnone in T. discriminate T.
        -- cbn. apply answers_call; [exact I|]. intros o ->. cbn.
           apply answers_return. intros _. eexists. split; reflexivity.
      * apply answers_call; [exact I|]. intros o ->. cbn.
        apply answers_return. intros _. eexists. split; reflexivity.
    + apply answers_return. intros _. eexists. split; reflexivity.
  - apply answers_call; [exact I|]. intros o ->. cbn.
    apply answers_return. intros H; discriminate H.
Qed.

Lemma only_email_alice n : only_email "alice@example.com" alice (alice_with n).
Proof.
  intros u q Hu _. cbn [alice_with user_profiles] in Hu.
  apply lookup_singleton_Some in Hu. symmetry. exact (proj1 Hu).
Qed.

Lemma webhook_redelivery_adds_twice_witness :
  let bought := 25 * 1 in
  let once := run (StripeWebhook.handler starter_checkout) (quiet (alice_with 3)) in
  let twice := run (StripeWebhook.handler starter_checkout) (snd once) in
  user_profiles (w_db (snd once)) !! alice
    = Some (set_credits (mkProfile "alice@example.com" 3 0) (3 + bought)) /\
  user_profiles (w_db (snd twice)) !! alice
    = Some (set_credits (mkProfile "alice@example.com" 3 0) (3 + 2 * bought)) /\
  credit_transactions (w_db (snd twice)) = credit_transactions (alice_with 3).
Proof.
  apply (webhook_redelivery_adds_twice starter_checkout (quiet (alice_with 3))
           "alice@example.com" alice (mkProfile "alice@example.com" 3 0)).
  - reflexivity.
  - reflexivity.
  - discriminate.
  - discriminate.
  - discriminate.
  - reflexivity.
  - reflexivity.
  - reflexivity.
  - apply only_email_alice.
  - simpl. lia.
  - simpl. lia.
  - simpl. unfold int4_max. lia.
Defined.

Lemma webhook_unknown_email_leaves_tables_witness :
  let done := run (StripeWebhook.handler
                     (StripeWebhook.mkSession true (Some "bob@example.com") 25 1))
                (quiet (alice_with 3)) in
  w_db (snd done) = alice_with 3 /\
  (true = true -> exists res, fst done = Resolved res /\ status res = 200).
Proof.
  apply (webhook_unknown_email_leaves_tables
           (StripeWebhook.mkSession true (Some "bob@example.com") 25 1)
           (quiet (alice_with 3)) "bob@example.com").
  - reflexivity.
  - vm_compute. reflexivity.
Defined.

(** ** The purchase routes *)

(** X9. POST /api/credits/purchase with an amount that is not positive is
    turned away with 400 (or 401 by the middleware) and leaves the tables as
    they were, whatever happens to the requests. *)
Theorem credits_purchase_rejects_amount (req : request) (amount : Z)
    (plan : string) (w : world)
    (Hamount : amount <= 0) :
  let done := run (ServerSupabase.post_credits_purchase req amount plan) w in
  w_db (snd done) = w_db w /\
  exists res, fst done = Resolved res /\ (status res = 400 \/ status res = 401).
Proof.
  intros done. subst done.
  apply (leaves_tables_run (w_db w)
           (fun o => exists res, o = Resolved res /\
                                 (status res = 400 \/ status res = 401)));
    [|reflexivity].
  unfold ServerSupabase.post_credits_purchase, protected, authenticateUser,
    ServerSupabase.credits_purchase, json_response, console_error, await.
  replace ((amount =? 0) || (amount <=? 0)) with true
    by (symmetry; apply orb_true_iff; right; apply Z.leb_le; exact Hamount).
  destruct (req_token req);
    answers_auto ltac:(eexists; split; [reflexivity|cbn; auto]).
Qed.

Lemma credits_purchase_rejects_amount_witness :
  let done := run (ServerSupabase.post_credits_purchase upload (-5) "starter")
                (quiet (alice_with 3)) in
  w_db (snd done) = alice_with 3 /\
  exists res, fst done = Resolved res /\ (status res = 400 \/ status res = 401).
Proof.
  apply (credits_purchase_rejects_amount upload (-5) "starter" (quiet (alice_with 3))).
  lia.
Defined.



(** One request with the fault the environment has for it, or none. *)
Ltac fstep :=
  rewrite run_call;
  first [ rewrite exec_replicate
        | rewrite exec_console
        | erewrite exec_call_head by (first [reflexivity | eassumption])
        | rewrite exec_call_quiet by (first [reflexivity | assumption]) ];
  unfold after_request, request_failed;
  cbn [db_request]; world_simpl.

Lemma select_profile_found u p d :
  user_profiles d !! u = Some p -> select_profile u d = sb_ok p.
Proof. intros H. unfold select_profile. rewrite H. reflexivity. Qed.

Lemma update_credits_found u v returning p d :
  user_profiles d !! u = Some p -> in_int4 v = true ->
  update_credits u v returning d =
  (if returning then sb_ok (set_credits p v) else sb_null,
   set_profiles d (<[u := set_credits p v]> (user_profiles d))).
Proof. intros H Hv. unfold update_credits. rewrite Hv, H. reflexivity. Qed.

Lemma ledger_sum_add d t u :
  ledger_sum (add_transaction d t) u =
  ledger_sum d u + (if String.eqb (tx_user_id t) u then amount t else 0).
Proof.
  unfold ledger_sum. cbn [credit_transactions add_transaction].
  rewrite sum_amounts_app. reflexivity.
Qed.

Ltac unfold_purchases :=
  unfold ServerFirstTryCredits.post_purchase_credits,
    ServerFirstTryCredits.purchase_credits,
    ServerWithCredits.post_purchase_credits, ServerWithCredits.purchase_credits,
    ServerWithCredits.authenticateToken, ServerFirstTry.authenticateToken,
    json_response, console_error, await.

(** X11. Buying a package, every request going through: both package routes
    (server (1try).js and server_with_credits.js) add the credits of the
    package to the balance and write one row of that amount, so an account
    whose balance was the sum of its rows still is. *)
Theorem package_purchase_reconciled (req : request) (name : string) (n : Z)
    (w : world) (id : string) (p : user_profile)
    (Htoken : req_token req = Token id)
    (Hquiet : w_faults w = [])
    (Haccount : user_profiles (w_db w) !! id = Some p)
    (Hrange : in_int4 (credits p + n) = true)
    (Hledger : credits p = ledger_sum (w_db w) id) :
  let first_try :=
    run (ServerFirstTryCredits.post_purchase_credits req (Some (name, n))) w in
  let with_credits :=
    run (ServerWithCredits.post_purchase_credits req (Some (name, n))) w in
  (balance (w_db (snd first_try)) id = Some (credits p + n) /\
   ledger_sum (w_db (snd first_try)) id = credits p + n /\
   succeeded (fst first_try) = true) /\
  (balance (w_db (snd with_credits)) id = Some (credits p + n) /\
   ledger_sum (w_db (snd with_credits)) id = credits p + n /\
   succeeded (fst with_credits) = true).
Proof.
  intros first_try with_credits. subst first_try with_credits.
  unfold_purchases. rewrite Htoken. world_simpl. split.
  - fstep. rewrite (select_profile_found id p _ Haccount). world_simpl.
    fstep. rewrite (update_credits_found id _ false p _ Haccount Hrange).
    world_simpl. fstep. cbn [run]. world_simpl.
    unfold balance. world_simpl. rewrite ledger_sum_add, lookup_insert_eq.
    cbn [tx_user_id amount fmap option_fmap option_map credits set_credits].
    rewrite String.eqb_refl. unfold ledger_sum at 1. world_simpl.
    fold (ledger_sum (w_db w) id). rewrite <- Hledger. repeat split.
  - fstep. rewrite (select_profile_found id p _ Haccount). world_simpl.
    fstep. fstep.
    erewrite update_credits_found by (world_simpl; eassumption).
    world_simpl. cbn [run]. world_simpl.
    unfold balance. world_simpl. rewrite lookup_insert_eq.
    cbn [tx_user_id amount fmap option_fmap option_map credits set_credits].
    unfold ledger_sum. world_simpl. rewrite sum_amounts_app.
    cbn [tx_user_id amount]. rewrite String.eqb_refl.
    fold (ledger_sum (w_db w) id). rewrite <- Hledger. repeat split.
Qed.

Lemma package_purchase_reconciled_witness :
  let first_try :=
    run (ServerFirstTryCredits.post_purchase_credits upload (Some ("Starter Pack", 10)))
      (quiet (alice_with 3)) in
  let with_credits :=
    run (ServerWithCredits.post_purchase_credits upload (Some ("Starter Pack", 10)))
      (quiet (alice_with 3)) in
  (balance (w_db (snd first_try)) alice = Some (3 + 10) /\
   ledger_sum (w_db (snd first_try)) alice = 3 + 10 /\
   succeeded (fst first_try) = true) /\
  (balance (w_db (snd with_credits)) alice = Some (3 + 10) /\
   ledger_sum (w_db (snd with_credits)) alice = 3 + 10 /\
   succeeded (fst with_credits) = true).
Proof.
  apply (package_purchase_reconciled upload "Starter Pack" 10 (quiet (alice_with 3))
           alice (mkProfile "alice@example.com" 3 0)).
  - reflexivity.
  - reflexivity.
  - reflexivity.
  - reflexivity.
  - reflexivity.
Defined.

(** X12. Neither package route writes its two rows as one: when the second
    write fails, server_with_credits.js has written the purchase row and not
    the credits, and server (1try).js has written the credits and not the
    row, and answers 200 all the same if the failure is an error in the
    reply. *)
Theorem package_purchase_fails_apart (req : request) (name : string) (n : Z)
    (w : world) (id : string) (p : user_profile) (f : fault)
    (Htoken : req_token req = Token id)
    (Hfaults : w_faults w = [NoFault; NoFault; f])
    (Hfails : f <> NoFault)
    (Haccount : user_profiles (w_db w) !! id = Some p)
    (Hrange : in_int4 (credits p + n) = true) :
  let first_try :=
    run (ServerFirstTryCredits.post_purchase_credits req (Some (name, n))) w in
  let with_credits :=
    run (ServerWithCredits.post_purchase_credits req (Some (name, n))) w in
  (balance (w_db (snd first_try)) id = Some (credits p + n) /\
   credit_transactions (w_db (snd first_try)) = credit_transactions (w_db w) /\
   succeeded (fst first_try) = match f with ReturnsError => true | _ => false end) /\
  (balance (w_db (snd with_credits)) id = Some (credits p) /\
   credit_transactions (w_db (snd with_credits)) =
     (credit_transactions (w_db w) ++ [mkTransaction id n "purchase" name])%list /\
   succeeded (fst with_credits) = false).
Proof.
  intros first_try with_credits. subst first_try with_credits.
  unfold_purchases. rewrite Htoken. world_simpl. split.
  - fstep. rewrite (select_profile_found id p _ Haccount). world_simpl.
    fstep. rewrite (update_credits_found id _ false p _ Haccount Hrange).
    world_simpl. fstep.
    destruct f; [contradiction| |]; world_simpl; fstep; cbn [run]; world_simpl;
      unfold balance; world_simpl; rewrite lookup_insert_eq; repeat split.
  - fstep. rewrite (select_profile_found id p _ Haccount). world_simpl.
    fstep. fstep.
    destruct f; [contradiction| |]; world_simpl; fstep; cbn [run]; world_simpl;
      unfold balance; world_simpl; rewrite Haccount; repeat split.
Qed.

Lemma package_purchase_fails_apart_witness :
  let w := mkWorld (alice_with 3) [] [] [NoFault; NoFault; ReturnsError] in
  let first_try :=
    run (ServerFirstTryCredits.post_purchase_credits upload (Some ("Starter Pack", 10))) w in
  let with_credits :=
    run (ServerWithCredits.post_purchase_credits upload (Some ("Starter Pack", 10))) w in
  (balance (w_db (snd first_try)) alice = Some (3 + 10) /\
   credit_transactions (w_db (snd first_try)) = credit_transactions (alice_with 3) /\
   succeeded (fst first_try) = true) /\
  (balance (w_db (snd with_credits)) alice = Some 3 /\
   credit_transactions (w_db (snd with_credits)) =
     (credit_transactions (alice_with 3) ++
        [mkTransaction alice 10 "purchase" "Starter Pack"])%list /\
   succeeded (fst with_credits) = false).
Proof.
  apply (package_purchase_fails_apart upload "Starter Pack" 10
           (mkWorld (alice_with 3) [] [] [NoFault; NoFault; ReturnsError])
           alice (mkProfile "alice@example.com" 3 0) ReturnsError).
  - reflexivity.
  - reflexivity.
  - discriminate.
  - reflexivity.
  - reflexivity.
Defined.

(** X13. add_credits_to_user against update_user_credits.  It never
    writes a row of credit_transactions.  Without a profile it answers FALSE
    and changes nothing, where update_user_credits answers TRUE.  With one it
    adds the amount whatever its sign and answers TRUE: it leaves the
    profiles as a successful update_user_credits does, and where
    update_user_credits refuses a debit beyond the balance it takes the
    balance below zero.  A new balance that is no INTEGER is an error that
    changes nothing. *)
Theorem add_credits_to_user_unguarded (u : string) (n : Z) (ty desc : string)
    (d : db) :
  let added := commit (add_credits_to_user u n) d in
  let updated := commit (update_user_credits u n ty desc) d in
  credit_transactions (snd added) = credit_transactions d /\
  match user_profiles d !! u with
  | None => fst added = Some false /\ snd added = d /\ fst updated = Some true
  | Some p =>
      if in_int4 (credits p + n)
      then fst added = Some true /\
           balance (snd added) u = Some (credits p + n) /\
           (fst updated = Some true ->
            user_profiles (snd updated) = user_profiles (snd added)) /\
           (n < 0 -> credits p + n < 0 ->
            fst updated = Some false /\ balance (snd updated) u = Some (credits p))
      else fst added = None /\ snd added = d
  end.
Proof.
  intros added updated. subst added updated.
  unfold commit. rewrite !update_user_credits_eq.
  unfold add_credits_to_user, txn_bind, update_credits_by, row_found, txn_ret.
  destruct (user_profiles d !! u) as [p|] eqn:Hp.
  - destruct (in_int4 (credits p + n)) eqn:Hr; cbn [fst snd].
    + unfold set_profiles. cbn [user_profiles]. rewrite lookup_insert_eq.
      rewrite bool_decide_true by (eexists; reflexivity).
      cbn [fst snd credit_transactions].
      split; [reflexivity|]. split; [reflexivity|].
      unfold balance. cbn [user_profiles]. rewrite lookup_insert_eq.
      split; [reflexivity|].
      destruct ((n <? 0) && (credits p + n <? 0)) eqn:Hguard; cbn [fst snd].
      * split; [intros H; discriminate H|]. intros _ _.
        rewrite Hp. split; reflexivity.
      * split; [intros _; reflexivity|]. intros Hn Hlow.
        apply andb_false_iff in Hguard.
        destruct Hguard as [H|H]; apply Z.ltb_ge in H; lia.
    + repeat split.
  - rewrite Hp. rewrite bool_decide_false by (intros [x Hx]; discriminate Hx).
    repeat split.
Qed.

(** ** What a generation costs *)

Ltac settle_cost Haccount :=
  cbn [run]; world_simpl; unfold balance; world_simpl;
  cbn [succeeded status Z.eqb Pos.eqb];
  first [rewrite lookup_insert_eq | rewrite Haccount];
  cbn [fmap option_fmap option_map credits set_credits];
  f_equal; lia.

(** X14. In every route but that of server 2.js, a request served with every
    database request going through costs one credit exactly when it is
    answered 200, and nothing otherwise; in server_with_auth.js, for a seed
    on which the trim does not throw. *)
Theorem generation_costs_one_credit (v : variant) (req : request)
    (provider : provider_result) (w : world) (id : string) (p : user_profile)
    (Hroute : v <> Second)
    (Hseed : v = WithAuth -> seed_throws req = false)
    (Htoken : req_token req = Token id)
    (Hquiet : w_faults w = [])
    (Haccount : user_profiles (w_db w) !! id = Some p)
    (Hbalance : 0 <= credits p <= int4_max) :
  let done := run (generate v req provider) w in
  balance (w_db (snd done)) id =
    Some (credits p - (if succeeded (fst done) then 1 else 0)).
Proof.
  intros done. subst done.
  destruct v; try contradiction;
    first [specialize (Hseed eq_refl) | clear Hseed];
    unfold_handlers; rewrite Htoken; world_simpl; use_seed;
    drive_quiet p; settle_cost Haccount.
Qed.

Lemma generation_costs_one_credit_witness :
  let done := run (generate Supabase upload (Failure "timeout")) (quiet (alice_with 3)) in
  balance (w_db (snd done)) alice =
    Some (3 - (if succeeded (fst done) then 1 else 0)).
Proof.
  apply (generation_costs_one_credit Supabase upload (Failure "timeout")
           (quiet (alice_with 3)) alice (mkProfile "alice@example.com" 3 0)).
  - discriminate.
  - discriminate.
  - reflexivity.
  - reflexivity.
  - reflexivity.
  - simpl. unfold int4_max. lia.
Defined.

(** X15. server 2.js deducts and writes the usage row before the model
    runs, and its catch block gives nothing back: a request whose provider
    call fails is answered 500 and stays charged. *)
Theorem second_server_charges_failure (req : request) (msg : string)
    (w : world) (id : string) (p : user_profile)
    (Htoken : req_token req = Token id)
    (Hfile : req_file req = true)
    (Hquiet : w_faults w = [])
    (Haccount : user_profiles (w_db w) !! id = Some p)
    (Hbalance : 1 <= credits p <= int4_max) :
  let done := run (ServerSecond.post_generate req (Failure msg)) w in
  balance (w_db (snd done)) id = Some (credits p - 1) /\
  credit_transactions (w_db (snd done)) =
    (credit_transactions (w_db w) ++
       [mkTransaction id (-1) "usage" "Generated professional headshot"])%list /\
  fst done = Resolved (mkResponse 500
    [("error", JStr ("Failed to generate headshot: " +:+ msg))]).
Proof.
  intros done. subst done.
  unfold_handlers. rewrite Htoken, Hfile. world_simpl.
  quiet_step. passes_check p. do 4 quiet_step.
  cbn [run]. world_simpl. unfold balance. world_simpl.
  rewrite lookup_insert_eq. repeat split.
Qed.

Lemma second_server_charges_failure_witness :
  let done := run (ServerSecond.post_generate upload (Failure "timeout"))
                (quiet (alice_with 2)) in
  balance (w_db (snd done)) alice = Some (2 - 1) /\
  credit_transactions (w_db (snd done)) =
    (credit_transactions (alice_with 2) ++
       [mkTransaction alice (-1) "usage" "Generated professional headshot"])%list /\
  fst done = Resolved (mkResponse 500
    [("error", JStr ("Failed to generate headshot: " +:+ "timeout"))]).
Proof.
  apply (second_server_charges_failure upload "timeout" (quiet (alice_with 2))
           alice (mkProfile "alice@example.com" 2 0)).
  - reflexivity.
  - reflexivity.
  - reflexivity.
  - reflexivity.
  - simpl. unfold int4_max. lia.
Defined.

Ltac settle_ledger Haccount Hledger :=
  cbn [run]; world_simpl;
  let q := fresh "q" in let Hq := fresh "Hq" in
  intros q Hq;
  cbn [w_db with_db traced logged add_transaction set_profiles user_profiles] in Hq;
  first [rewrite lookup_insert_eq in Hq | rewrite Haccount in Hq];
  injection Hq as <-;
  unfold ledger_sum; world_simpl;
  rewrite ?sum_amounts_app; cbn [tx_user_id amount credits set_credits];
  rewrite ?String.eqb_refl;
  pose proof (Hledger _ Haccount) as Hsum; unfold ledger_sum in Hsum; lia.

(** X16. server (1try).js and server 2.js write the balance and the usage
    row themselves, in two requests; when every request goes through and
    requests are served one at a time, an account whose balance was the sum
    of its rows still is after a generation request. *)
Theorem direct_debit_keeps_reconciled (v : variant) (req : request)
    (provider : provider_result) (w : world) (id : string) (p : user_profile)
    (Hroute : v = FirstTry \/ v = Second)
    (Htoken : req_token req = Token id)
    (Hquiet : w_faults w = [])
    (Haccount : user_profiles (w_db w) !! id = Some p)
    (Hbalance : 0 <= credits p <= int4_max)
    (Hledger : reconciled_at id (w_db w)) :
  reconciled_at id (w_db (snd (run (generate v req provider) w))).
Proof.
  unfold reconciled_at in *.
  destruct Hroute as [-> | ->]; unfold_handlers; rewrite Htoken; world_simpl;
    drive_quiet p; settle_ledger Haccount Hledger.
Qed.

Lemma direct_debit_keeps_reconciled_witness :
  reconciled_at alice
    (w_db (snd (run (generate Second upload (Output picture)) (quiet (alice_with 3))))).
Proof.
  apply (direct_debit_keeps_reconciled Second upload (Output picture)
           (quiet (alice_with 3)) alice (mkProfile "alice@example.com" 3 0)).
  - right. reflexivity.
  - reflexivity.
  - reflexivity.
  - reflexivity.
  - simpl. unfold int4_max. lia.
  - intros q Hq. vm_compute in Hq. injection Hq as <-. reflexivity.
Defined.

(** ** Requests that fail on the way *)

(** X17. server_with_auth.js, when the deduction itself fails (the request
    having come as far as the deduction: the trim of its seed does not
    throw): the model is not run and the request is not answered 200.  If the
    failure is an error in the reply the tables are as they were; if the
    request is rejected, the catch block refunds a credit that was never
    taken, and the balance ends one above where it was. *)
Theorem failed_deduction_refunds_untaken_credit (req : request)
    (provider : provider_result) (w : world) (id : string) (p : user_profile)
    (f : fault)
    (Htoken : req_token req = Token id)
    (Hfile : req_file req = true)
    (Hseed : seed_throws req = false)
    (Hfaults : w_faults w = [NoFault; f])
    (Hfails : f <> NoFault)
    (Haccount : user_profiles (w_db w) !! id = Some p)
    (Hbalance : 1 <= credits p < int4_max) :
  let done := run (ServerWithAuth.post_generate_headshot req provider) w in
  provider_calls (w_trace (snd done)) = provider_calls (w_trace w) /\
  succeeded (fst done) = false /\
  match f with
  | Rejects =>
      balance (w_db (snd done)) id = Some (credits p + 1) /\
      credit_transactions (w_db (snd done)) =
        (credit_transactions (w_db w) ++
           [mkTransaction id 1 "refund" "Refund for failed generation"])%list
  | _ => w_db (snd done) = w_db w
  end.
Proof.
  intros done. subst done.
  unfold_handlers. rewrite Htoken, Hfile, Hseed. world_simpl.
  fstep. rewrite (select_profile_found id p _ Haccount). world_simpl.
  passes_check p. fstep.
  destruct f; [contradiction| |]; world_simpl.
  - fstep. cbn [run]. world_simpl.
    unfold provider_calls. rewrite !List.filter_app. cbn [List.filter is_provider_call].
    rewrite !app_nil_r. repeat split.
  - fstep. fstep.
    unfold rpc_update_user_credits, commit.
    rewrite update_user_credits_eq, Haccount.
    assert (Hr : in_int4 (credits p + 1) = true)
      by (apply in_int4_spec; unfold int4_min, int4_max in *; lia).
    rewrite Hr. change (in_int4 1) with true.
    cbn [Z.ltb Z.compare andb]. world_simpl.
    cbn [run]. world_simpl.
    unfold provider_calls. rewrite !List.filter_app. cbn [List.filter is_provider_call].
    rewrite !app_nil_r. unfold balance. world_simpl. rewrite lookup_insert_eq.
    repeat split.
Qed.

Lemma failed_deduction_refunds_untaken_credit_witness :
  let w := mkWorld (alice_with 3) [] [] [NoFault; Rejects] in
  let done := run (ServerWithAuth.post_generate_headshot upload (Output picture)) w in
  provider_calls (w_trace (snd done)) = provider_calls [] /\
  succeeded (fst done) = false /\
  balance (w_db (snd done)) alice = Some (3 + 1) /\
  credit_transactions (w_db (snd done)) =
    (credit_transactions (alice_with 3) ++
       [mkTransaction alice 1 "refund" "Refund for failed generation"])%list.
Proof.
  apply (failed_deduction_refunds_untaken_credit upload (Output picture)
           (mkWorld (alice_with 3) [] [] [NoFault; Rejects]) alice
           (mkProfile "alice@example.com" 3 0) Rejects).
  - reflexivity.
  - reflexivity.
  - reflexivity.
  - reflexivity.
  - discriminate.
  - reflexivity.
  - simpl. unfold int4_max. lia.
Defined.

(** X25. server_with_auth.js, for a request on whose seed the trim throws
    (a seed that is no string), every database request going through: the
    throw comes before the deduction and lands in the catch block, which
    refunds without asking whether the credit was taken.  The model is not
    run, the answer is 500, and the balance ends one above where it was,
    with a refund row and no usage row. *)
Theorem thrown_seed_refunds_untaken_credit (req : request)
    (provider : provider_result) (w : world) (id : string) (p : user_profile)
    (Htoken : req_token req = Token id)
    (Hfile : req_file req = true)
    (Hseed : seed_throws req = true)
    (Hquiet : w_faults w = [])
    (Haccount : user_profiles (w_db w) !! id = Some p)
    (Hbalance : 1 <= credits p < int4_max) :
  let done := run (ServerWithAuth.post_generate_headshot req provider) w in
  provider_calls (w_trace (snd done)) = provider_calls (w_trace w) /\
  fst done = Resolved (mkResponse 500
    [("error", JStr "Failed to generate headshot");
     ("details", JStr "seed.trim is not a function")]) /\
  balance (w_db (snd done)) id = Some (credits p + 1) /\
  credit_transactions (w_db (snd done)) =
    (credit_transactions (w_db w) ++
       [mkTransaction id 1 "refund" "Refund for failed generation"])%list /\
  generations (w_db (snd done)) = generations (w_db w).
Proof.
  intros done. subst done.
  unfold_handlers. rewrite Htoken, Hfile, Hseed. world_simpl.
  quiet_step. passes_check p.
  do 2 quiet_step.
  cbn [run]. world_simpl.
  unfold provider_calls. rewrite !List.filter_app. cbn [List.filter is_provider_call].
  rewrite !app_nil_r. unfold balance. world_simpl. rewrite lookup_insert_eq.
  repeat split.
Qed.

Lemma thrown_seed_refunds_untaken_credit_witness :
  let done := run (ServerWithAuth.post_generate_headshot seeded_twice (Output picture))
                (quiet (alice_with 1)) in
  provider_calls (w_trace (snd done)) = provider_calls [] /\
  fst done = Resolved (mkResponse 500
    [("error", JStr "Failed to generate headshot");
     ("details", JStr "seed.trim is not a function")]) /\
  balance (w_db (snd done)) alice = Some (1 + 1) /\
  credit_transactions (w_db (snd done)) =
    (credit_transactions (alice_with 1) ++
       [mkTransaction alice 1 "refund" "Refund for failed generation"])%list /\
  generations (w_db (snd done)) = generations (alice_with 1).
Proof.
  apply (thrown_seed_refunds_untaken_credit seeded_twice (Output picture)
           (quiet (alice_with 1)) alice (mkProfile "alice@example.com" 1 0)).
  - reflexivity.
  - reflexivity.
  - reflexivity.
  - reflexivity.
  - reflexivity.
  - simpl. unfold int4_max. lia.
Defined.

(** With that refund a balance of 1 pays for two generations: the request
    with the seed sent twice, then two ordinary ones, served in turn. *)
Lemma untaken_refund_pays_a_generation :
  let done := serve (map handle [(WithAuth, seeded_twice, Output picture);
                                 (WithAuth, upload, Output picture);
                                 (WithAuth, upload, Output picture)])
                (quiet (alice_with 1)) in
  successes (fst done) = 2 /\ balance (w_db (snd done)) alice = Some 0.
Proof. vm_compute. split; reflexivity. Qed.

(** X26. In the four routes that trim the seed inside their try block
    (server_with_auth.js, server_with_credits.js, the servers of
    api/auth/session-status.js and api/auth/history.js), a request on whose
    seed the trim throws never reaches the model and is never answered 200,
    whatever the provider would do and whatever happens to the database
    requests. *)
Theorem thrown_seed_turns_request_back (v : variant) (req : request)
    (provider : provider_result) (w : world)
    (Hroute : takes_seed v = true)
    (Hseed : seed_throws req = true) :
  let done := run (generate v req provider) w in
  provider_calls (w_trace (snd done)) = provider_calls (w_trace w) /\
  succeeded (fst done) = false.
Proof.
  intros done. subst done.
  assert (Hkeeps : forall c w',
            provider_calls (w_trace w') = provider_calls (w_trace w) ->
            not_provider c ->
            provider_calls (w_trace (snd (exec_call c w')))
              = provider_calls (w_trace w)).
  { intros c w' HI Hc. rewrite exec_call_not_provider; assumption. }
  assert (Htold : forall c w',
            provider_calls (w_trace w') = provider_calls (w_trace w) ->
            console_returns c (fst (exec_call c w'))).
  { intros c w' _. destruct c; cbn; try exact I. reflexivity. }
  apply (run_answers _ not_provider console_returns Hkeeps Htold
           (fun o => succeeded o = false) (generate v req provider));
    [|reflexivity].
  destruct v; try discriminate Hroute; unfold_handlers; rewrite Hseed;
    destruct (req_token req); answers_auto ltac:(reflexivity).
Qed.

Lemma thrown_seed_turns_request_back_witness :
  let done := run (generate History seeded_twice (Output picture))
                (quiet (alice_with 1)) in
  provider_calls (w_trace (snd done)) = provider_calls [] /\
  succeeded (fst done) = false.
Proof.
  apply (thrown_seed_turns_request_back History seeded_twice (Output picture)
           (quiet (alice_with 1))).
  - reflexivity.
  - reflexivity.
Defined.

(** X18. In the five routes that run the model first, for a request that
    reaches the model (the trim of its seed does not throw), a deduction
    that comes back with an error does not stop the request: the image is
    answered with 200 and the balance is what it was. *)
Theorem failed_deduction_gives_free_generation (v : variant) (req : request)
    (url : string) (w : world) (id : string) (p : user_profile)
    (Hroute : debits_first v = false)
    (Htoken : req_token req = Token id)
    (Hfile : req_file req = true)
    (Hseed : seed_throws req = false)
    (Hfaults : w_faults w = [NoFault; ReturnsError])
    (Haccount : user_profiles (w_db w) !! id = Some p)
    (Hbalance : 1 <= credits p) :
  let done := run (generate v req (Output (JStr url))) w in
  succeeded (fst done) = true /\
  user_profiles (w_db (snd done)) = user_profiles (w_db w) /\
  length (provider_calls (w_trace (snd done))) =
    S (length (provider_calls (w_trace w))).
Proof.
  intros done. subst done.
  destruct v; try discriminate Hroute; unfold_handlers;
    rewrite Htoken, ?Hfile, ?Hseed; world_simpl;
    fstep; rewrite (select_profile_found id p _ Haccount); world_simpl;
    passes_check p; rewrite ?Hfile; world_simpl;
    repeat (fstep; rewrite ?(select_profile_found id p _ Haccount); world_simpl);
    cbn [run]; world_simpl;
    unfold provider_calls; rewrite !List.filter_app;
    cbn [List.filter is_provider_call]; rewrite ?app_nil_r, ?length_app;
    cbn [length]; repeat split; lia.
Qed.

Lemma failed_deduction_gives_free_generation_witness :
  let w := mkWorld (alice_with 3) [] [] [NoFault; ReturnsError] in
  let done := run (generate History upload (Output (JStr "https://out.png"))) w in
  succeeded (fst done) = true /\
  user_profiles (w_db (snd done)) = user_profiles (alice_with 3) /\
  length (provider_calls (w_trace (snd done))) = S (length (provider_calls [])).
Proof.
  apply (failed_deduction_gives_free_generation History upload "https://out.png"
           (mkWorld (alice_with 3) [] [] [NoFault; ReturnsError]) alice
           (mkProfile "alice@example.com" 3 0)).
  - reflexivity.
  - reflexivity.
  - reflexivity.
  - reflexivity.
  - reflexivity.
  - reflexivity.
  - simpl. lia.
Defined.

(** X19. Five of the routes answer every request, whatever the provider
    does and whatever happens to the database requests: nothing their
    handlers throw escapes them. *)
Theorem generation_always_answered (v : variant) (req : request)
    (provider : provider_result) (w : world)
    (Hroute : v <> Supabase /\ v <> Api) :
  answered (fst (run (generate v req provider) w)).
Proof.
  apply (answers_run answered).
  destruct Hroute as [H1 H2].
  destruct v; try contradiction; unfold_handlers;
    destruct (req_token req); answers_auto ltac:(exact I).
Qed.

Lemma generation_always_answered_witness :
  answered (fst (run (generate WithAuth upload (Failure "timeout"))
                   (mkWorld (alice_with 3) [] [] [NoFault; NoFault; Rejects]))).
Proof.
  apply (generation_always_answered WithAuth upload (Failure "timeout")
           (mkWorld (alice_with 3) [] [] [NoFault; NoFault; Rejects])).
  split; discriminate.
Defined.


(** X20. Two requests that are left without an answer when the provider
    fails: in api/auth/generate-headshot.js nothing catches the rejection;
    in the server of api/auth/session-status.js the catch block awaits the
    insert of the failed generation, and a rejection there escapes it. *)
Theorem failed_generation_left_unanswered (req : request) (msg : string)
    (w : world) (id : string) (p : user_profile)
    (Htoken : req_token req = Token id)
    (Hfile : req_file req = true)
    (Hfaults : w_faults w = [NoFault; Rejects])
    (Haccount : user_profiles (w_db w) !! id = Some p)
    (Hbalance : 1 <= credits p) :
  let api := run (generate Api req (Failure msg)) w in
  let supabase := run (generate Supabase req (Failure msg)) w in
  fst api = Rejected msg /\ w_db (snd api) = w_db w /\
  fst supabase = Rejected "fetch failed" /\ w_db (snd supabase) = w_db w.
Proof.
  intros api supabase. subst api supabase.
  split; [|split; [|split]]; unfold_handlers; rewrite Htoken, ?Hfile; world_simpl;
    fstep; rewrite (select_profile_found id p _ Haccount); world_simpl;
    passes_check p; rewrite ?Hfile; world_simpl;
    try (destruct (seed_throws req); world_simpl);
    repeat (fstep; world_simpl); reflexivity.
Qed.

Lemma failed_generation_left_unanswered_witness :
  let w := mkWorld (alice_with 3) [] [] [NoFault; Rejects] in
  let api := run (generate Api upload (Failure "timeout")) w in
  let supabase := run (generate Supabase upload (Failure "timeout")) w in
  fst api = Rejected "timeout" /\ w_db (snd api) = alice_with 3 /\
  fst supabase = Rejected "fetch failed" /\ w_db (snd supabase) = alice_with 3.
Proof.
  apply (failed_generation_left_unanswered upload "timeout"
           (mkWorld (alice_with 3) [] [] [NoFault; Rejects]) alice
           (mkProfile "alice@example.com" 3 0)).
  - reflexivity.
  - reflexivity.
  - reflexivity.
  - reflexivity.
  - simpl. lia.
Defined.

Lemma filter_length_snoc {A} (f : A -> bool) l x :
  length (List.filter f (l ++ [x])) =
  (length (List.filter f l) + (if f x then 1 else 0))%nat.
Proof.
  rewrite List.filter_app, length_app. cbn [List.filter].
  destruct (f x); reflexivity.
Qed.

Lemma run_at_most {A} (counted : call -> bool) n (p : prog A) :
  at_most counted n p ->
  forall w,
    (length (List.filter counted (w_trace (snd (run p w))))
     <= length (List.filter counted (w_trace w)) + n)%nat.
Proof.
  induction 1 as [n a|n msg|n c k Hk IH|n c k Hc Hk IH]; intros w.
  - cbn [run snd]. lia.
  - cbn [run snd]. lia.
  - rewrite run_call. specialize (IH (fst (exec_call c w)) (snd (exec_call c w))).
    rewrite exec_call_trace in IH.
    destruct c; rewrite ?app_nil_r, ?filter_length_snoc in IH;
      try destruct (counted _); lia.
  - rewrite run_call. specialize (IH (fst (exec_call c w)) (snd (exec_call c w))).
    rewrite exec_call_trace in IH.
    destruct c; rewrite ?app_nil_r, ?filter_length_snoc, ?Hc in IH; lia.
Qed.

Ltac at_most_step :=
  lazymatch goal with
  | |- at_most _ _ (Return _) => apply at_most_return
  | |- at_most _ _ (Throw _) => apply at_most_throw
  | |- at_most _ _ (Call _ _) =>
      first [ apply at_most_other;
              [ cbn; rewrite ?andb_false_r; reflexivity
              | let r := fresh "r" in let msg := fresh "msg" in intros [r|msg] ]
            | apply at_most_counted;
              let r := fresh "r" in let msg := fresh "msg" in intros [r|msg] ]
  | |- at_most _ _ ?p =>
      match p with
      | context [match ?x with _ => _ end] => destruct x eqn:?
      end
  end.

Ltac at_most_auto := cbn; repeat (at_most_step; cbn).

(** X21. No route runs the model twice or sends a second debit for one
    request, whatever the provider does and whatever happens to the database
    requests: there is no retry. *)
Theorem generation_calls_once (v : variant) (req : request)
    (provider : provider_result) (w : world) (u : string) :
  let done := run (generate v req provider) w in
  (length (provider_calls (w_trace (snd done)))
   <= S (length (provider_calls (w_trace w))))%nat /\
  (length (List.filter (is_debit_of u) (w_trace (snd done)))
   <= S (length (List.filter (is_debit_of u) (w_trace w))))%nat.
Proof.
  intros done. subst done. unfold provider_calls. split.
  - rewrite <- Nat.add_1_r. apply run_at_most.
    destruct v; unfold_handlers; destruct (req_token req); at_most_auto.
  - rewrite <- Nat.add_1_r. apply run_at_most.
    destruct v; unfold_handlers; destruct (req_token req); at_most_auto.
Qed.

(** ** Requests that overlap *)

Lemma step_call {A} c (k : outcome (reply_of c) -> prog A) w :
  step (Call c k) w = (k (fst (exec_call c w)), snd (exec_call c w)).
Proof. cbn [step]. destruct (exec_call c w); reflexivity. Qed.

Lemma sched_next {A} i order (ps : list (prog A)) w p :
  ps !! i = Some p ->
  sched (i :: order) ps w =
  sched order (<[i := fst (step p w)]> ps) (snd (step p w)).
Proof. intros H. cbn [sched]. rewrite H. destruct (step p w); reflexivity. Qed.

Ltac sched_step :=
  erewrite sched_next by reflexivity;
  first [ rewrite step_call;
          first [ rewrite exec_replicate
                | rewrite exec_console
                | erewrite exec_select_quiet by side
                | erewrite exec_rpc_quiet by side
                | erewrite exec_update_quiet by side
                | erewrite exec_insert_generation_quiet by side
                | erewrite exec_insert_transaction_quiet by side ]
        | cbn [step] ];
  cbn [insert list_insert]; world_simpl.

Ltac settle_overlap :=
  cbn [sched fst snd]; unfold successes, outcomes;
  cbn [omap list_omap finished List.filter succeeded status Z.eqb Pos.eqb length];
  world_simpl; unfold balance; world_simpl; rewrite lookup_insert_eq;
  cbn [fmap option_fmap option_map credits set_credits];
  split; [reflexivity | f_equal; lia].

(** X22. Two requests of one account that overlap (each with a seed on
    which the trim does not throw), each resumed in turn at
    its awaits, in the three routes that write the balance themselves
    (server_with_credits.js, server (1try).js, server 2.js): both read the
    same balance, both are answered 200, and both write that balance minus
    one, so two generations cost one credit. *)
Theorem overlapping_writes_lose_a_debit (v : variant) (req1 req2 : request)
    (url1 url2 : string) (w : world) (id : string) (p : user_profile)
    (Hroute : v = WithCredits \/ v = FirstTry \/ v = Second)
    (Htoken1 : req_token req1 = Token id)
    (Htoken2 : req_token req2 = Token id)
    (Hfile1 : req_file req1 = true)
    (Hfile2 : req_file req2 = true)
    (Hseed1 : seed_throws req1 = false)
    (Hseed2 : seed_throws req2 = false)
    (Hquiet : w_faults w = [])
    (Haccount : user_profiles (w_db w) !! id = Some p)
    (Hbalance : 1 <= credits p <= int4_max) :
  let requests := [handle (v, req1, Output (JStr url1));
                   handle (v, req2, Output (JStr url2))] in
  let done := sched [0; 1; 0; 1; 0; 1; 0; 1]%nat requests w in
  successes (outcomes (fst done)) = 2 /\
  balance (w_db (snd done)) id = Some (credits p - 1).
Proof.
  intros requests done. subst requests done.
  unfold handle. cbn [fst snd].
  destruct Hroute as [-> | [-> | ->]]; unfold_handlers;
    rewrite Htoken1, Htoken2, Hfile1, Hfile2, ?Hseed1, ?Hseed2; world_simpl;
    sched_step; passes_check p; sched_step; passes_check p;
    do 6 sched_step; settle_overlap.
Qed.

(** X23. Two such overlapping requests in the four routes that deduct
    through update_user_credits, on a balance of at least 2: the function
    reads and writes the balance in one request, so each generation costs
    its credit. *)
Theorem overlapping_rpc_debits_both_count (v : variant) (req1 req2 : request)
    (url1 url2 : string) (w : world) (id : string) (p : user_profile)
    (Hroute : v = WithAuth \/ v = Supabase \/ v = History \/ v = Api)
    (Htoken1 : req_token req1 = Token id)
    (Htoken2 : req_token req2 = Token id)
    (Hfile1 : req_file req1 = true)
    (Hfile2 : req_file req2 = true)
    (Hseed1 : seed_throws req1 = false)
    (Hseed2 : seed_throws req2 = false)
    (Hquiet : w_faults w = [])
    (Haccount : user_profiles (w_db w) !! id = Some p)
    (Hbalance : 2 <= credits p <= int4_max) :
  let requests := [handle (v, req1, Output (JStr url1));
                   handle (v, req2, Output (JStr url2))] in
  let done := sched [0; 1; 0; 1; 0; 1; 0; 1; 0; 1]%nat requests w in
  successes (outcomes (fst done)) = 2 /\
  balance (w_db (snd done)) id = Some (credits p - 2).
Proof.
  intros requests done. subst requests done.
  unfold handle. cbn [fst snd].
  destruct Hroute as [-> | [-> | [-> | ->]]]; unfold_handlers;
    rewrite Htoken1, Htoken2, Hfile1, Hfile2, ?Hseed1, ?Hseed2; world_simpl;
    sched_step; passes_check p; sched_step; passes_check p;
    do 8 sched_step; settle_overlap.
Qed.

Lemma overlapping_writes_lose_a_debit_witness :
  let requests := [handle (FirstTry, upload, Output (JStr "https://one.png"));
                   handle (FirstTry, upload, Output (JStr "https://two.png"))] in
  let done := sched [0; 1; 0; 1; 0; 1; 0; 1]%nat requests (quiet (alice_with 3)) in
  successes (outcomes (fst done)) = 2 /\
  balance (w_db (snd done)) alice = Some (3 - 1).
Proof.
  apply (overlapping_writes_lose_a_debit FirstTry upload upload
           "https://one.png" "https://two.png" (quiet (alice_with 3)) alice
           (mkProfile "alice@example.com" 3 0)).
  - right. left. reflexivity.
  - reflexivity.
  - reflexivity.
  - reflexivity.
  - reflexivity.
  - reflexivity.
  - reflexivity.
  - reflexivity.
  - reflexivity.
  - simpl. unfold int4_max. lia.
Defined.

Lemma overlapping_rpc_debits_both_count_witness :
  let requests := [handle (Supabase, upload, Output (JStr "https://one.png"));
                   handle (Supabase, upload, Output (JStr "https://two.png"))] in
  let done := sched [0; 1; 0; 1; 0; 1; 0; 1; 0; 1]%nat requests (quiet (alice_with 3)) in
  successes (outcomes (fst done)) = 2 /\
  balance (w_db (snd done)) alice = Some (3 - 2).
Proof.
  apply (overlapping_rpc_debits_both_count Supabase upload upload
           "https://one.png" "https://two.png" (quiet (alice_with 3)) alice
           (mkProfile "alice@example.com" 3 0)).
  - right. left. reflexivity.
  - reflexivity.
  - reflexivity.
  - reflexivity.
  - reflexivity.
  - reflexivity.
  - reflexivity.
  - reflexivity.
  - reflexivity.
  - simpl. unfold int4_max. lia.
Defined.

(** X24. In all seven routes, a request that reaches the model (the trim
    of its seed does not throw) and is answered 200 when every database
    request goes through reports in its answer the balance that is then
    stored: the balance it found, minus one. *)
Theorem success_reports_stored_balance (v : variant) (req : request)
    (url : string) (w : world) (id : string) (p : user_profile)
    (Htoken : req_token req = Token id)
    (Hfile : req_file req = true)
    (Hseed : seed_throws req = false)
    (Hquiet : w_faults w = [])
    (Haccount : user_profiles (w_db w) !! id = Some p)
    (Hbalance : 1 <= credits p <= int4_max) :
  let done := run (generate v req (Output (JStr url))) w in
  balance (w_db (snd done)) id = Some (credits p - 1) /\
  exists res, fst done = Resolved res /\ status res = 200 /\
    reports_balance res (credits p - 1).
Proof.
  intros done. subst done.
  destruct v; unfold_handlers; rewrite Htoken, ?Hfile, ?Hseed; world_simpl;
    quiet_step; passes_check p; rewrite ?Hfile; world_simpl;
    repeat quiet_step; cbn [run]; world_simpl;
    (split; [unfold balance; world_simpl; rewrite lookup_insert_eq;
             cbn [fmap option_fmap option_map credits set_credits]; f_equal; lia|]);
    (eexists; split; [reflexivity|]; split; [reflexivity|]).
  all: unfold reports_balance; cbn [body].
  all: try (destruct (credits p + -1 =? 0)).
  all: first [ exists "creditsRemaining"; cbn; do 2 f_equal; lia
             | exists "remaining_credits"; cbn; do 2 f_equal; lia ].
Qed.

Lemma success_reports_stored_balance_witness :
  let done := run (generate History upload (Output (JStr "https://out.png")))
                (quiet (alice_with 1)) in
  balance (w_db (snd done)) alice = Some (1 - 1) /\
  exists res, fst done = Resolved res /\ status res = 200 /\
    reports_balance res (1 - 1).
Proof.
  apply (success_reports_stored_balance History upload "https://out.png"
           (quiet (alice_with 1)) alice (mkProfile "alice@example.com" 1 0)).
  - reflexivity.
  - reflexivity.
  - reflexivity.
  - reflexivity.
  - reflexivity.
  - simpl. unfold int4_max. lia.
Defined.
